(** * TRAKer: a shallow embedding of [trak/traker.py]

    The featurization pipeline of [TRAKer] is embedded as pure functions
    over an explicit object state.  A Python method that may raise becomes a
    function from the object before the call to an outcome (a value or the
    exception raised) together with the object after the call, so that what
    a failing call has already written stays visible.

    The tensor library, the automatic-differentiation facilities and the
    caller-supplied capabilities (model, output function, output-to-loss
    function, projector class) are collaborators of the source; the part of
    their behaviour the source relies on is written out in [Torch], and what
    stays opaque is collected in the classes [Numeric] and
    [Collaborators]. *)

From Stdlib Require Import ZArith Lia Bool.
From stdpp Require Import base list strings.

Set Default Proof Using "Type".
Open Scope Z_scope.

(** ** Python outcomes *)

(** Exception classes.  The first group are the built-in classes the
    statements of the source can raise; the last three are the error kinds
    the specification names, which no statement of the source raises. *)
Inductive exn : Type :=
  | NameError | AttributeError | TypeError | ValueError | IndexError
  | RuntimeError
  | ConfigurationError | UnsupportedModeError | ShapeMismatchError.

Inductive result (A : Type) : Type :=
  | Ok (a : A)
  | Raise (e : exn).
Arguments Ok {A} a.
Arguments Raise {A} e.

Definition rbind {A B} (c : result A) (k : A -> result B) : result B :=
  match c with
  | Ok a => k a
  | Raise e => Raise e
  end.

Notation "x <~ c ;; k" := (rbind c (fun x => k))
  (at level 100, c at next level, right associativity).

(** [traverse f l] calls [f] on the elements of [l] from left to right and
    stops at the first exception. *)
Fixpoint traverse {A B} (f : A -> result B) (l : list A) : result (list B) :=
  match l with
  | [] => Ok []
  | a :: l' => b <~ f a ;; bs <~ traverse f l' ;; Ok (b :: bs)
  end.

(** ** Element types, devices, projection kinds *)

Inductive DType : Type := float16 | bfloat16 | float32 | float64.

Definition dtype_eqb (a b : DType) : bool :=
  match a, b with
  | float16, float16 | bfloat16, bfloat16
  | float32, float32 | float64, float64 => true
  | _, _ => false
  end.

Inductive Device : Type := CPU | CUDA.

Inductive ProjectionType : Type := normal | rademacher.

(** The floating-point scalars are kept abstract: [cast d x] is [x] rounded
    into the dtype [d]. *)
Class Numeric : Type := {
  scalar : Type;
  szero : scalar;
  sadd : scalar -> scalar -> scalar;
  smul : scalar -> scalar -> scalar;
  cast : DType -> scalar -> scalar;
}.

(** What the interpreter found at import time: whether
    [from functorch import make_functional_with_buffers, grad, vmap]
    bound its names (lines 8-11 catch the [ImportError] and go on), and
    whether a CUDA device exists. *)
Record Env : Type := mkEnv {
  functorch_available : bool;
  cuda_available : bool;
}.

(** The [model] argument of [featurize] is either a module or the triple
    that the functional path unpacks. *)
Inductive ModelArg {Mo FM W B : Type} : Type :=
  | AsModule (m : Mo)
  | AsTriple (func_model : FM) (weights : W) (buffers : B).
Arguments ModelArg : clear implicits.

(** ** The tensor library *)

Module Torch.
Section Torch.
Context `{Numeric}.

(** A two-dimensional tensor: element type, number of columns and rows.
    The column count is kept apart from the rows so that a tensor with no
    row still has a shape. *)
Record Tensor : Type := mkTensor {
  t_dtype : DType;
  t_ncols : nat;
  t_rows : list (list scalar);
}.

Definition shape (t : Tensor) : nat * nat := (length (t_rows t), t_ncols t).

Definition wf (t : Tensor) : Prop :=
  Forall (fun r => length r = t_ncols t) (t_rows t).

(** [torch.get_default_dtype()], which the source never changes. *)
Definition default_dtype : DType := float32.

(** [ch.zeros([n, m])] *)
Definition zeros (n m : nat) : Tensor :=
  mkTensor default_dtype m (replicate n (replicate m szero)).

(** [t.to(d)] *)
Definition to (d : DType) (t : Tensor) : Tensor :=
  mkTensor d (t_ncols t) (map (map (cast d)) (t_rows t)).

(** [t.detach().clone().cpu()]: a fresh tensor with the same entries, cut
    from the autograd graph and placed on the host.  Graph linkage and
    placement are not part of [Tensor], so the entries are all there
    is. *)
Definition detach_clone_cpu (t : Tensor) : Tensor := t.

(** Broadcasting of a value of shape [(B, c)] to [(K, P)]: a dimension is
    kept when it matches and repeated when it is 1. *)
Definition expand_rows (K : nat) (rs : list (list scalar))
  : option (list (list scalar)) :=
  if (length rs =? K)%nat then Some rs
  else match rs with
       | [r] => Some (replicate K r)
       | _ => None
       end.

Definition expand_cols (P c : nat) (rs : list (list scalar))
  : option (list (list scalar)) :=
  if (c =? P)%nat then Some rs
  else if (c =? 1)%nat
       then Some (map (fun r => replicate P (default szero (head r))) rs)
       else None.

Definition expand_to (K P : nat) (v : Tensor) : option (list (list scalar)) :=
  rs ← expand_cols P (t_ncols v) (t_rows v); expand_rows K rs.

(** A Python index into a dimension of size [n]: negative indices count
    from the end. *)
Definition normalize (n : nat) (i : Z) : option nat :=
  if (0 <=? i) && (i <? Z.of_nat n) then Some (Z.to_nat i)
  else if (- Z.of_nat n <=? i) && (i <? 0) then Some (Z.to_nat (i + Z.of_nat n))
  else None.

(** The element loop of an indexed store: rows are written in order, an
    index out of range raises [IndexError], and the rows written before
    it stay written. *)
Fixpoint write_rows (rows : list (list scalar)) (ws : list (Z * list scalar))
  : result unit * list (list scalar) :=
  match ws with
  | [] => (Ok tt, rows)
  | (i, r) :: ws' =>
      match normalize (length rows) i with
      | Some k => write_rows (<[k := r]> rows) ws'
      | None => (Raise IndexError, rows)
      end
  end.

(** [dest[inds] = v] for a list of integers [inds] ([index_put_]): the
    value must broadcast to [(len(inds), ncols)], else "shape mismatch:
    value tensor ... cannot be broadcast to indexing result", and must
    have the element type of [dest], else "Index put requires the source
    and destination dtypes match"; both are [RuntimeError]s raised before
    any row is written.  With the same index twice, the later row wins.
    The indices are taken to fit the 64-bit integers of an index tensor;
    the library refuses a list that does not, with a [RuntimeError] and
    before writing, which is not modelled. *)
Definition index_put (dest : Tensor) (inds : list Z) (v : Tensor)
  : result unit * Tensor :=
  match expand_to (length inds) (t_ncols dest) v with
  | None => (Raise RuntimeError, dest)
  | Some rs =>
      if dtype_eqb (t_dtype v) (t_dtype dest) then
        let '(o, rows') := write_rows (t_rows dest) (zip inds rs) in
        (o, mkTensor (t_dtype dest) (t_ncols dest) rows')
      else (Raise RuntimeError, dest)
  end.

(** [dest[None] = v]: [dest[None]] is the view of shape [(1, n, ncols)]
    onto all of [dest]; the value is broadcast to it and copied in, and
    copying converts the element type. *)
Definition copy_all (dest : Tensor) (v : Tensor) : result unit * Tensor :=
  match expand_to (length (t_rows dest)) (t_ncols dest) v with
  | None => (Raise RuntimeError, dest)
  | Some rs =>
      (Ok tt, mkTensor (t_dtype dest) (t_ncols dest)
                (map (map (cast (t_dtype dest))) rs))
  end.

(** [dest[inds] = v] where [inds] is [None] or a list of integers. *)
Definition setitem (dest : Tensor) (inds : option (list Z)) (v : Tensor)
  : result unit * Tensor :=
  match inds with
  | None => copy_all dest v
  | Some l => index_put dest l v
  end.

(** [vmap(f, in_dims=(None, None, 0, ..., 0))(weights, buffers, *batch)],
    with [f] already applied to the two unmapped arguments: every tensor
    of [batch] is split along its leading dimension, which must be the
    same for all of them, and [f] is called once per sample (for a batch
    of no sample it is not called at all, where the library still traces
    it once).  A batch is the list of its tensors; a tensor is the list of
    its slices along the leading dimension. *)
Definition sample_at {S : Type} (batch : list (list S)) (k : nat) : list S :=
  omap (fun t => t !! k) batch.

Definition vmap {S A : Type} (f : list S -> result A) (batch : list (list S))
  : result (list A) :=
  match batch with
  | [] => Raise ValueError
  | t :: ts =>
      if forallb (fun t' => (length t' =? length t)%nat) ts
      then traverse f (map (sample_at batch) (seq 0 (length t)))
      else Raise ValueError
  end.

End Torch.
End Torch.
Export Torch.


(** ** Collaborators *)

(** The external capabilities of section 6 of the specification and the
    differentiation facilities, as opaque functions.  A batch is the list
    of its tensors and a tensor of a batch is the list of its [slice]s
    along the leading dimension. *)
Class Collaborators `{Numeric} : Type := {
  slice : Type;
  NNModule : Type;
  FuncModel : Type;
  Weights : Type;
  Buffers : Type;
  OutFn : Type;
  LossFn : Type;
  ModelOutput : Type;
  (** a scalar output with its autograd history *)
  Node : Type;
  (** [model.parameters()], each parameter tensor flattened *)
  module_parameters : NNModule -> list (list scalar);
  (** element type and total number of entries of a tuple of weights *)
  weights_dtype : Weights -> DType;
  weights_numel : Weights -> nat;
  (** [grad(out_fn, has_aux=False)(weights, buffers, *sample)]: the
      gradient of the output of one sample in the weights, one flattened
      tensor per weight *)
  functorch_grad :
    OutFn -> Weights -> Buffers -> list slice -> result (list (list scalar));
  (** [out_fn(model, batch)] of the iterative path *)
  call_out_fn :
    OutFn -> ModelArg NNModule FuncModel Weights Buffers ->
    list (list slice) -> result (list Node);
  (** [ch.autograd.grad(node, model.parameters(), retain_graph=True)] *)
  autograd_grad : Node -> NNModule -> result (list (list scalar));
  (** [func_model(weights, buffers, images)] *)
  call_func_model :
    FuncModel -> Weights -> Buffers -> list slice -> result Tensor;
  (** [model_output_fn.get_out_to_loss(logits, labels)] *)
  get_out_to_loss : ModelOutput -> Tensor -> list slice -> result Tensor;
  (** entry [(i, j)] of the random matrix that a projector draws for a
      distribution, a seed, [grad_dim] and [proj_dim] *)
  proj_entry : ProjectionType -> Z -> nat -> nat -> nat -> nat -> scalar;
}.

Section Traker.
Context `{Collaborators}.

Definition Batch : Type := list (list slice).
Definition Model : Type := ModelArg NNModule FuncModel Weights Buffers.

(** *** [trak.utils] *)

(** Modelled from the spec: [parameters_to_vector] of [trak.utils] is not
    among the sources; section 3 makes the Parameter Vector "a single
    flattened, ordered sequence of scalars representing every trainable
    parameter of the model". *)
Definition parameters_to_vector (ps : list (list scalar)) : list scalar :=
  concat ps.

Definition numel (v : list scalar) : nat := length v.

(** Modelled from the spec: [vectorize_and_ignore_buffers] of [trak.utils]
    is not among the sources; section 4.2 has the batched strategy return
    "a flattened-and-buffer-stripped gradient matrix" of shape
    [(B, grad_dim)].  Row [b] is the flattened gradient of sample [b].  In
    the source the stacked gradients carry the element type and the sizes
    of the weights they were taken in; here these are read off [weights],
    so that a batch of no sample still gives a matrix of the right width. *)
Definition vectorize_and_ignore_buffers
    (weights : Weights) (g : list (list (list scalar))) : Tensor :=
  mkTensor (weights_dtype weights) (weights_numel weights)
           (map (fun x => concat x) g).

(** *** [trak.projectors] *)

(** A projector object: what the source uses of it is its [project]
    method. *)
Record Projector : Type := mkProjector {
  project : Tensor -> result Tensor;
}.

(** A projector class is called with [seed], [proj_dim], [grad_dim],
    [proj_type], [dtype] and [device]. *)
Definition ProjectorClass : Type :=
  Z -> nat -> nat -> ProjectionType -> DType -> option Device ->
  result Projector.

Definition dot (r c : list scalar) : scalar :=
  foldr sadd szero (zip_with smul r c).

Definition proj_column
    (proj_type : ProjectionType) (seed : Z) (grad_dim proj_dim j : nat)
  : list scalar :=
  map (fun i => proj_entry proj_type seed grad_dim proj_dim i j)
      (seq 0 grad_dim).

Definition project_row
    (proj_type : ProjectionType) (seed : Z) (grad_dim proj_dim : nat)
    (dtype : DType) (r : list scalar) : list scalar :=
  map (fun j =>
         cast dtype (dot r (proj_column proj_type seed grad_dim proj_dim j)))
      (seq 0 proj_dim).

(** Modelled from the spec: [BasicProjector] of [trak.projectors] is not
    among the sources.  Sections 3 and 4.1: the map is "a deterministic
    function of (seed, grad_dim, proj_dim, distribution type)";
    construction "fails with ConfigurationError if grad_dim is not yet
    known (i.e., if the source model's parameter count is empty) or
    proj_dim <= 0"; Project takes a matrix of shape [(B, grad_dim)] to one
    of shape [(B, proj_dim)], "applies the fixed random linear map to each
    row independently" and computes "in the projector's configured working
    dtype".  Project is specified on inputs of width [grad_dim] only; here
    any other width is refused with [RuntimeError], as a matrix product
    would. *)
Definition BasicProjector : ProjectorClass :=
  fun seed proj_dim grad_dim proj_type dtype device =>
    if (grad_dim =? 0)%nat || (proj_dim =? 0)%nat then Raise ConfigurationError
    else Ok (mkProjector (fun g =>
      if (t_ncols g =? grad_dim)%nat
      then Ok (mkTensor dtype proj_dim
                 (map (project_row proj_type seed grad_dim proj_dim dtype)
                      (t_rows g)))
      else Raise RuntimeError)).

(** *** The object *)

Record TRAKer : Type := mkTRAKer {
  save_dir : string;
  model : NNModule;
  model_output_fn : ModelOutput;
  device : option Device;
  grad_dtype : DType;
  last_ind : Z;
  projector : Projector;
  train_set_size : nat;
  model_params : list scalar;
  grad_dim : nat;
  grads : Tensor;
}.

(** [self.grads = t] *)
Definition set_grads (self : TRAKer) (t : Tensor) : TRAKer :=
  mkTRAKer (save_dir self) (model self) (model_output_fn self) (device self)
           (grad_dtype self) (last_ind self) (projector self)
           (train_set_size self) (model_params self) (grad_dim self) t.

(** A method body: from the object before the call to the outcome and the
    object after it. *)
Definition M (A : Type) : Type := TRAKer -> result A * TRAKer.

Definition ret {A} (a : A) : M A := fun self => (Ok a, self).
Definition throw {A} (e : exn) : M A := fun self => (Raise e, self).
Definition call {A} (c : result A) : M A := fun self => (c, self).
Definition bind {A B} (c : M A) (k : A -> M B) : M B :=
  fun self =>
    match c self with
    | (Ok a, self') => k a self'
    | (Raise e, self') => (Raise e, self')
    end.

Notation "x <- c ;; k" := (bind c (fun x => k))
  (at level 100, c at next level, right associativity).
Notation "c ;;; k" := (bind c (fun _ => k))
  (at level 100, right associativity).

(** What a Python call hands back. *)
Inductive pyval : Type :=
  | PyNone
  | PyTensor (t : Tensor).

(** Lines 14-61.  The sizes are natural numbers: [proj_dim] and
    [train_set_size] are dimensions of a tensor. *)
Definition __init__
    (model : NNModule) (model_output_fn : ModelOutput) (proj_dim : nat)
    (projector : ProjectorClass) (proj_type : ProjectionType) (proj_seed : Z)
    (save_dir : string) (device : option Device) (train_set_size : nat)
    (grad_dtype : DType) (load_from : option string) : result TRAKer :=
  p <~ projector proj_seed proj_dim
         (numel (parameters_to_vector (module_parameters model)))
         proj_type grad_dtype device ;;
  let model_params := parameters_to_vector (module_parameters model) in
  Ok (mkTRAKer save_dir model model_output_fn device grad_dtype 0 p
        train_set_size model_params (numel model_params)
        (zeros train_set_size proj_dim)).

(** Lines 115-117. *)
Definition record_grads (g : Tensor) (inds : option (list Z)) : M unit :=
  fun self =>
    match project (projector self) (to (grad_dtype self) g) with
    | Raise e => (Raise e, self)
    | Ok p =>
        let '(o, t) := setitem (grads self) inds (detach_clone_cpu p) in
        (o, set_grads self t)
    end.

(** Lines 83-93.  With [functorch] missing, [grad] is an unbound global:
    evaluating it raises [NameError]. *)
Definition _featurize_functional
    (env : Env) (out_fn : OutFn) (weights : Weights) (buffers : Buffers)
    (batch : Batch) (inds : option (list Z)) : M pyval :=
  if functorch_available env then
    g <- call (vmap (functorch_grad out_fn weights buffers) batch) ;;
    record_grads (vectorize_and_ignore_buffers weights g) inds ;;;
    ret PyNone
  else throw NameError.

(** The fourth argument of [_featurize_iter]: [None], an integer, or the
    [inds] that [featurize] passes in that position. *)
Inductive BatchSizeArg : Type :=
  | BSNone
  | BSInt (n : nat)
  | BSInds (l : list Z).

Definition inds_as_batch_size (inds : option (list Z)) : BatchSizeArg :=
  match inds with
  | None => BSNone
  | Some l => BSInds l
  end.

(** [grads[ind] = v] for an integer [ind] and a vector [v]: the vector is
    broadcast to the width of the row and copied in, which converts the
    element type. *)
Definition expand_vec (n : nat) (v : list scalar) : option (list scalar) :=
  if (length v =? n)%nat then Some v
  else match v with
       | [x] => Some (replicate n x)
       | _ => None
       end.

(** The loop of lines 108-111: row [ind] of [grads] receives the flattened
    gradient of [margin[ind]]. *)
Fixpoint iter_rows (model : Model) (margin : list Node) (z : Tensor)
    (inds : list nat) (acc : list (list scalar)) : result (list (list scalar)) :=
  match inds with
  | [] => Ok acc
  | ind :: rest =>
      match margin !! ind with
      | None => Raise IndexError
      | Some node =>
          match model with
          | AsTriple _ _ _ => Raise AttributeError
          | AsModule m =>
              g <~ autograd_grad node m ;;
              match expand_vec (t_ncols z) (parameters_to_vector g) with
              | Some v =>
                  iter_rows model margin z rest
                    (<[ind := map (cast (t_dtype z)) v]> acc)
              | None => Raise RuntimeError
              end
          end
      end
  end.

(** Lines 95-113.  [ch.zeros(batch_size, self.grad_dim)] wants integers and
    raises [TypeError] on a list; [.cuda()] raises when there is no CUDA
    device. *)
Definition _featurize_iter
    (env : Env) (out_fn : OutFn) (model : Model) (batch : Batch)
    (batch_size : BatchSizeArg) : M pyval :=
  fun self =>
    let size :=
      match batch_size with
      | BSNone =>
          match batch with
          | [] => Raise IndexError
          | t :: _ => Ok (length t)
          end
      | BSInt n => Ok n
      | BSInds _ => Raise TypeError
      end in
    let r :=
      n <~ size ;;
      z <~ (if cuda_available env then Ok (zeros n (grad_dim self))
            else Raise RuntimeError) ;;
      margin <~ call_out_fn out_fn model batch ;;
      rows <~ iter_rows model margin z (seq 0 n) (t_rows z) ;;
      Ok (PyTensor (mkTensor (t_dtype z) (t_ncols z) rows)) in
    (r, self).

(** Lines 119-127. *)
Definition _get_loss_grad_functional
    (func_model : FuncModel) (weights : Weights) (buffers : Buffers)
    (batch : Batch) (inds : option (list Z)) : M pyval :=
  fun self =>
    match batch with
    | [images; labels] =>
        (logits <~ call_func_model func_model weights buffers images ;;
         l <~ get_out_to_loss (model_output_fn self) logits labels ;;
         Ok (PyTensor l), self)
    | _ => (Raise ValueError, self)
    end.

(** Lines 63-80.  The functional branch unpacks [model] as a triple, which
    raises [TypeError] on a module, and binds [loss_grads] as a local name;
    the other branch looks up [self._get_loss_grad_iter], which the class
    does not define.  Neither branch has a [return]. *)
Definition featurize
    (env : Env) (out_fn : OutFn) (loss_fn : LossFn) (model : Model)
    (batch : Batch) (inds : option (list Z)) (functional : bool) : M pyval :=
  if functional then
    match model with
    | AsTriple func_model weights buffers =>
        _featurize_functional env out_fn weights buffers batch inds ;;;
        loss_grads <-
          _get_loss_grad_functional func_model weights buffers batch inds ;;
        ret PyNone
    | AsModule _ => throw TypeError
    end
  else
    _featurize_iter env out_fn model batch (inds_as_batch_size inds) ;;;
    throw AttributeError.

(** Lines 130-136. *)
Definition finalize
    (out_dir : option string) (cleanup : bool) (agg : bool) : M pyval :=
  ret PyNone.

Definition score (val : Tensor) (params : list (list scalar)) : M pyval :=
  ret (PyTensor (zeros 1 1)).

(** *** Sequences of calls *)

(** The calls a client can make on a constructed object. *)
Inductive Call : Type :=
  | CallFeaturize (out_fn : OutFn) (loss_fn : LossFn) (model : Model)
      (batch : Batch) (inds : option (list Z)) (functional : bool)
  | CallFeaturizeFunctional (out_fn : OutFn) (weights : Weights)
      (buffers : Buffers) (batch : Batch) (inds : option (list Z))
  | CallFeaturizeIter (out_fn : OutFn) (model : Model) (batch : Batch)
      (batch_size : BatchSizeArg)
  | CallRecordGrads (g : Tensor) (inds : option (list Z))
  | CallGetLossGradFunctional (func_model : FuncModel) (weights : Weights)
      (buffers : Buffers) (batch : Batch) (inds : option (list Z))
  | CallFinalize (out_dir : option string) (cleanup agg : bool)
  | CallScore (val : Tensor) (params : list (list scalar)).

(** The object after one call, whether the call returned or raised. *)
Definition run_call (env : Env) (c : Call) (self : TRAKer) : TRAKer :=
  match c with
  | CallFeaturize out_fn loss_fn model batch inds functional =>
      snd (featurize env out_fn loss_fn model batch inds functional self)
  | CallFeaturizeFunctional out_fn weights buffers batch inds =>
      snd (_featurize_functional env out_fn weights buffers batch inds self)
  | CallFeaturizeIter out_fn model batch batch_size =>
      snd (_featurize_iter env out_fn model batch batch_size self)
  | CallRecordGrads g inds => snd (record_grads g inds self)
  | CallGetLossGradFunctional func_model weights buffers batch inds =>
      snd (_get_loss_grad_functional func_model weights buffers batch inds self)
  | CallFinalize out_dir cleanup agg => snd (finalize out_dir cleanup agg self)
  | CallScore val params => snd (score val params self)
  end.

Definition run_calls (env : Env) (cs : list Call) (self : TRAKer) : TRAKer :=
  foldl (fun s c => run_call env c s) self cs.

(** *** Vocabulary of the statements *)

(** The rows that [write_rows] writes into a list of [n] rows: those of
    the indices before the first one out of range. *)
Fixpoint written (n : nat) (ws : list (Z * list scalar)) : list nat :=
  match ws with
  | [] => []
  | (i, _) :: ws' =>
      match normalize n i with
      | Some k => k :: written n ws'
      | None => []
      end
  end.

(** The tensors of a batch disagree on their leading dimension. *)
Definition ragged (batch : Batch) : Prop :=
  exists t t', t ∈ batch /\ t' ∈ batch /\ length t <> length t'.

(** Every tensor of a non-empty batch has [B] slices. *)
Definition batch_of_size (batch : Batch) (B : nat) : Prop :=
  batch <> [] /\ Forall (fun t => length t = B) batch.

(** [self'] is [self] with another store of the same shape and dtype. *)
Definition store_step (self self' : TRAKer) : Prop :=
  self' = set_grads self (grads self')
  /\ shape (grads self') = shape (grads self)
  /\ t_dtype (grads self') = t_dtype (grads self).

(** The shape contract of section 4.1: one output row per input row. *)
Definition row_preserving (p : Projector) : Prop :=
  forall g q, project p g = Ok q -> length (t_rows q) = length (t_rows g).

(** The row that [write_rows] leaves at position [j] of a list of [n] rows
    when it writes there: that of the last write addressing [j]. *)
Fixpoint last_write (n : nat) (ws : list (Z * list scalar)) (j : nat)
  : option (list scalar) :=
  match ws with
  | [] => None
  | (i, r) :: ws' =>
      match normalize n i with
      | Some k =>
          match last_write n ws' j with
          | Some r' => Some r'
          | None => if decide (k = j) then Some r else None
          end
      | None => None
      end
  end.

(** [i] is a Python index into a dimension of size [n]. *)
Definition in_range (n : nat) (i : Z) : Prop :=
  - Z.of_nat n <= i < Z.of_nat n.

(** A value of shape [(B, c)] broadcasts to [(K, P)]. *)
Definition broadcastable (K P : nat) (v : Tensor) : Prop :=
  (t_ncols v = P \/ t_ncols v = 1%nat)
  /\ (length (t_rows v) = K \/ length (t_rows v) = 1%nat).

(** [i] fits the 64-bit integers of an index tensor.  The indexed store
    turns the list of indices into such a tensor first; the embedding
    covers the lists that fit. *)
Definition int64 (i : Z) : Prop := - 2 ^ 63 <= i < 2 ^ 63.


(** The projector returns tensors whose rows have the width they claim. *)
Definition wf_preserving (p : Projector) : Prop :=
  forall g q, project p g = Ok q -> wf q.

End Traker.

Notation "x <- c ;; k" := (bind c (fun x => k))
  (at level 100, c at next level, right associativity).
Notation "c ;;; k" := (bind c (fun _ => k))
  (at level 100, right associativity).

(** ** A concrete world

    Integers stand in for the scalars, so that the model can be run: a
    module with the three parameters 1, 2, 3, an output function whose
    gradient for a sample is the sample's first slice in every coordinate,
    and the projector class [BasicProjector] with the matrix entries
    [seed + i + 2 j + 1]. *)

Module Toy.

Definition numeric : Numeric :=
  {| scalar := Z; szero := 0; sadd := Z.add; smul := Z.mul;
     cast := fun _ x => x |}.

Definition collaborators : @Collaborators numeric :=
  @Build_Collaborators numeric
    (* slice *) Z
    (* NNModule *) (list (list Z))
    (* FuncModel *) unit
    (* Weights *) (list Z)
    (* Buffers *) unit
    (* OutFn *) unit
    (* LossFn *) unit
    (* ModelOutput *) unit
    (* Node *) (list Z)
    (* module_parameters *) (fun m => m)
    (* weights_dtype *) (fun _ => float32)
    (* weights_numel *) (fun w => length w)
    (* functorch_grad *)
    (fun _ w _ sample => Ok [map (fun _ => default 0 (head sample)) w])
    (* call_out_fn *)
    (fun _ _ batch => Ok (map (fun x => [x; x; x]) (default [] (head batch))))
    (* autograd_grad *) (fun node _ => Ok [node])
    (* call_func_model *)
    (fun _ _ _ images =>
       Ok (@mkTensor numeric float32 1 (map (fun x => [x]) images)))
    (* get_out_to_loss *) (fun _ logits _ => Ok logits)
    (* proj_entry *)
    (fun _ seed _ _ i j => seed + Z.of_nat i + 2 * Z.of_nat j + 1).

#[local] Existing Instance numeric.
#[local] Existing Instance collaborators.

Definition module : @NNModule _ collaborators := [[1; 2]; [3]].
Definition triple : @Model _ collaborators := AsTriple tt [1; 2; 3] tt.

(** images and labels of two samples, and of one sample *)
Definition batch2 : @Batch _ collaborators := [[10; 20]; [1; 0]].
Definition batch1 : @Batch _ collaborators := [[10]; [1]].
Definition batch_ragged : @Batch _ collaborators := [[10; 20]; [1]].

Definition env_full : Env := mkEnv true true.
Definition env_bare : Env := mkEnv false false.

(** [TRAKer(module, ..., proj_dim=2, train_set_size=5, grad_dtype=d)] *)
Definition construct (d : DType) : result (@TRAKer _ collaborators) :=
  __init__ module tt 2%nat BasicProjector normal 0 "./trak_results" None
           5%nat d None.

Definition projector_of (d : DType) : @Projector numeric :=
  match BasicProjector 0 2%nat 3%nat normal d None with
  | Ok p => p
  | Raise _ => mkProjector (fun _ => Raise RuntimeError)
  end.

Definition traker (d : DType) : @TRAKer _ collaborators :=
  mkTRAKer "./trak_results" module tt None d 0 (projector_of d) 5%nat
           [1; 2; 3] 3%nat (zeros 5 2).

(** two gradient matrices of shape [(2, 3)] *)
Definition g1 : @Tensor numeric := mkTensor float32 3 [[1; 1; 1]; [2; 2; 2]].
Definition g2 : @Tensor numeric := mkTensor float32 3 [[5; 0; 0]; [0; 7; 0]].

(** gradient matrices of one row and of as many rows as the table *)
Definition g_single : @Tensor numeric := mkTensor float32 3 [[1; 1; 1]].
Definition g_full : @Tensor numeric :=
  mkTensor float32 3 [[1; 0; 0]; [0; 1; 0]; [0; 0; 1]; [1; 1; 0]; [1; 1; 1]].

(** a batch of images without labels *)
Definition batch_images : @Batch _ collaborators := [[10; 20]].



End Toy.

(** * Properties *)

Section Facts.
Context `{Collaborators}.

(** ** The indexed store *)

Lemma normalize_lt (n : nat) (i : Z) (k : nat) :
  normalize n i = Some k -> (k < n)%nat.
Proof.
  unfold normalize.
  destruct (0 <=? i) eqn:E1, (i <? Z.of_nat n) eqn:E2; simpl;
    try destruct (- Z.of_nat n <=? i) eqn:E3; simpl;
    try destruct (i <? 0) eqn:E4; simpl; intros [= <-]; lia.
Qed.

Lemma normalize_nonneg (n : nat) (i : Z) (k : nat) :
  0 <= i -> normalize n i = Some k -> k = Z.to_nat i.
Proof.
  unfold normalize. intros Hi.
  destruct (0 <=? i) eqn:E1; [|lia].
  destruct (i <? Z.of_nat n) eqn:E2; simpl; [congruence|].
  destruct (- Z.of_nat n <=? i) eqn:E3, (i <? 0) eqn:E4; simpl; try congruence.
  lia.
Qed.

Lemma write_rows_length (rows : list (list scalar)) ws :
  length (write_rows rows ws).2 = length rows.
Proof.
  revert rows. induction ws as [|[i r] ws IH]; intros rows; simpl; [done|].
  destruct (normalize (length rows) i); [|done].
  by rewrite IH, length_insert.
Qed.

Lemma write_rows_frame (rows : list (list scalar)) ws (j : nat) :
  j ∉ written (length rows) ws -> (write_rows rows ws).2 !! j = rows !! j.
Proof.
  revert rows. induction ws as [|[i r] ws IH]; intros rows; simpl; [done|].
  destruct (normalize (length rows) i) as [k|] eqn:E; [|done].
  intros [Hjk Hj]%not_elem_of_cons.
  rewrite IH by (by rewrite length_insert).
  by apply list_lookup_insert_ne.
Qed.

Lemma write_rows_agree (a b : list (list scalar)) ws :
  length a = length b ->
  (forall j, j ∉ written (length a) ws -> a !! j = b !! j) ->
  write_rows b ws = write_rows a ws.
Proof.
  revert a b. induction ws as [|[i r] ws IH]; intros a b Hl Hag; simpl.
  - f_equal. apply list_eq. intros j. symmetry. apply Hag, not_elem_of_nil.
  - rewrite <- Hl. simpl in Hag.
    destruct (normalize (length a) i) as [k|] eqn:E.
    + apply IH; [by rewrite !length_insert|].
      intros j Hj. rewrite length_insert in Hj.
      destruct (decide (j = k)) as [->|Hne].
      * apply normalize_lt in E.
        rewrite !list_lookup_insert_eq by lia. done.
      * rewrite !list_lookup_insert_ne by done.
        apply Hag, not_elem_of_cons. done.
    + f_equal. apply list_eq. intros j. symmetry. apply Hag, not_elem_of_nil.
Qed.


(** A call that returns has written every row; where no row position is
    written twice, position [p] holds the row that was sent to it. *)
Lemma write_rows_lookup (rows : list (list scalar)) ws k i r p :
  (write_rows rows ws).1 = Ok tt ->
  NoDup (written (length rows) ws) ->
  ws !! k = Some (i, r) ->
  normalize (length rows) i = Some p ->
  (write_rows rows ws).2 !! p = Some r.
Proof.
  revert rows k. induction ws as [|[i' r'] ws IH]; intros rows k; simpl; [done|].
  destruct (normalize (length rows) i') as [q|] eqn:E; [|done].
  intros Hok [Hq Hnd]%NoDup_cons Hk Hp.
  destruct k as [|k]; simpl in Hk.
  - injection Hk as -> ->. rewrite E in Hp. injection Hp as ->.
    rewrite write_rows_frame by (by rewrite length_insert).
    apply list_lookup_insert_eq. by apply normalize_lt in E.
  - apply (IH _ k); rewrite ?length_insert; done.
Qed.

Lemma written_normalize (n : nat) (inds : list Z) rs (j : nat) :
  j ∈ written n (zip inds rs) -> exists i, i ∈ inds /\ normalize n i = Some j.
Proof.
  revert rs. induction inds as [|i inds IH]; intros rs; simpl;
    [by intros ?%elem_of_nil|].
  destruct rs as [|r rs]; simpl; [by intros ?%elem_of_nil|].
  destruct (normalize n i) as [k|] eqn:E; [|by intros ?%elem_of_nil].
  intros [->|Hj]%elem_of_cons.
  - exists i. split; [apply elem_of_cons; by left|done].
  - destruct (IH rs Hj) as (i' & Hi' & Hn). exists i'.
    split; [apply elem_of_cons; by right|done].
Qed.

Lemma written_nonneg (n : nat) (inds : list Z) rs (j : nat) :
  Forall (fun i => 0 <= i) inds ->
  j ∈ written n (zip inds rs) -> Z.of_nat j ∈ inds.
Proof.
  revert rs. induction inds as [|i inds IH]; intros rs Hpos; simpl;
    [by intros ?%elem_of_nil|].
  destruct rs as [|r rs]; simpl; [by intros ?%elem_of_nil|].
  apply Forall_cons in Hpos as [Hi Hpos].
  destruct (normalize n i) as [k|] eqn:E; [|by intros ?%elem_of_nil].
  apply normalize_nonneg in E as ->; [|done].
  intros [->|Hj]%elem_of_cons.
  - rewrite Z2Nat.id by done. apply elem_of_cons. by left.
  - apply elem_of_cons. right. by apply (IH rs).
Qed.

Lemma written_NoDup (n : nat) (inds : list Z) rs :
  Forall (fun i => 0 <= i) inds -> NoDup inds ->
  NoDup (written n (zip inds rs)).
Proof.
  revert rs. induction inds as [|i inds IH]; intros rs Hpos Hnd; simpl;
    [constructor|].
  destruct rs as [|r rs]; simpl; [constructor|].
  apply Forall_cons in Hpos as [Hi Hpos]. apply NoDup_cons in Hnd as [Hni Hnd].
  destruct (normalize n i) as [k|] eqn:E; [|constructor].
  apply NoDup_cons. split; [|by apply IH].
  intros Hk%written_nonneg; [|done].
  apply normalize_nonneg in E as ->; [|done].
  by rewrite Z2Nat.id in Hk.
Qed.

Lemma write_rows_ok (rows : list (list scalar)) ws :
  (write_rows rows ws).1 = Ok tt ->
  Forall (fun w => is_Some (normalize (length rows) w.1)) ws.
Proof.
  revert rows. induction ws as [|[i r] ws IH]; intros rows; simpl;
    [constructor|].
  destruct (normalize (length rows) i) as [k|] eqn:E; [|done].
  intros Hok%IH. rewrite length_insert in Hok. constructor; [by eexists|done].
Qed.

Lemma written_subset (n : nat) (inds : list Z) (rs1 rs2 : list (list scalar)) j :
  length rs2 = length inds ->
  Forall (fun w => is_Some (normalize n w.1)) (zip inds rs2) ->
  j ∈ written n (zip inds rs1) -> j ∈ written n (zip inds rs2).
Proof.
  revert rs1 rs2. induction inds as [|i inds IH]; intros rs1 rs2; simpl; [done|].
  destruct rs2 as [|r2 rs2]; simpl; [done|]. intros [= Hl].
  intros [[k Hk] Hall]%Forall_cons. simpl in Hk.
  destruct rs1 as [|r1 rs1]; simpl; [by intros ?%elem_of_nil|].
  rewrite Hk. intros [->|Hj]%elem_of_cons; apply elem_of_cons; [by left|].
  right. by apply (IH rs1).
Qed.

Lemma expand_rows_length K (rs rs' : list (list scalar)) :
  expand_rows K rs = Some rs' -> length rs' = K.
Proof.
  unfold expand_rows. destruct (length rs =? K)%nat eqn:E.
  - intros [= <-]. by apply Nat.eqb_eq.
  - destruct rs as [|r [|]]; intros [= <-]. apply length_replicate.
Qed.

Lemma expand_cols_length P c (rs rs' : list (list scalar)) :
  expand_cols P c rs = Some rs' -> length rs' = length rs.
Proof.
  unfold expand_cols. destruct (c =? P)%nat; [by intros [= <-]|].
  destruct (c =? 1)%nat; intros [= <-]. apply length_map.
Qed.

Lemma expand_to_length K P (v : Tensor) rs :
  expand_to K P v = Some rs -> length rs = K.
Proof.
  unfold expand_to. destruct (expand_cols P (t_ncols v) (t_rows v)); simpl;
    [apply expand_rows_length|done].
Qed.

(** A value with [B] rows broadcasts to [K] rows only if [B] is [K] or 1. *)
Lemma expand_to_rows K P (v : Tensor) rs :
  expand_to K P v = Some rs ->
  length (t_rows v) = K \/ length (t_rows v) = 1%nat.
Proof.
  unfold expand_to.
  destruct (expand_cols P (t_ncols v) (t_rows v)) as [rs0|] eqn:E; simpl; [|done].
  apply expand_cols_length in E. rewrite <- E. unfold expand_rows.
  destruct (length rs0 =? K)%nat eqn:E'.
  - apply Nat.eqb_eq in E'. by left.
  - destruct rs0 as [|r [|]]; intros [= <-]. by right.
Qed.

Lemma setitem_shape (dest : Tensor) inds (v : Tensor) :
  shape (setitem dest inds v).2 = shape dest
  /\ t_dtype (setitem dest inds v).2 = t_dtype dest.
Proof.
  destruct inds as [l|]; simpl.
  - unfold index_put.
    destruct (expand_to (length l) (t_ncols dest) v) as [rs|]; [|done].
    destruct (dtype_eqb (t_dtype v) (t_dtype dest)); [|done].
    pose proof (write_rows_length (t_rows dest) (zip l rs)) as Hl.
    destruct (write_rows (t_rows dest) (zip l rs)) as [o rows']. simpl in *.
    unfold shape. simpl. by rewrite Hl.
  - unfold copy_all.
    destruct (expand_to (length (t_rows dest)) (t_ncols dest) v) as [rs|] eqn:E;
      [|done].
    unfold shape. simpl. apply expand_to_length in E.
    by rewrite length_map, E.
Qed.

Lemma index_put_frame (dest : Tensor) (l : list Z) (v : Tensor) (j : nat) :
  Forall (fun i => 0 <= i) l -> Z.of_nat j ∉ l ->
  t_rows (index_put dest l v).2 !! j = t_rows dest !! j.
Proof.
  intros Hpos Hj. unfold index_put.
  destruct (expand_to (length l) (t_ncols dest) v) as [rs|]; [|done].
  destruct (dtype_eqb (t_dtype v) (t_dtype dest)); [|done].
  pose proof (write_rows_frame (t_rows dest) (zip l rs) j) as Hf.
  destruct (write_rows (t_rows dest) (zip l rs)) as [o rows']. simpl in *.
  apply Hf. intros Hw. apply Hj. by eapply written_nonneg.
Qed.


(** A later store through the same index list that returns leaves nothing
    of an earlier one. *)
Lemma index_put_overwrite (dest : Tensor) (l : list Z) (v1 v2 : Tensor) :
  (index_put (index_put dest l v1).2 l v2).1 = Ok tt ->
  index_put (index_put dest l v1).2 l v2 = index_put dest l v2.
Proof.
  assert (Hsh : t_ncols (index_put dest l v1).2 = t_ncols dest
                /\ t_dtype (index_put dest l v1).2 = t_dtype dest
                /\ length (t_rows (index_put dest l v1).2) = length (t_rows dest)).
  { destruct (setitem_shape dest (Some l) v1) as [Hs Hd]. simpl in *.
    unfold shape in Hs. injection Hs as Hs1 Hs2. done. }
  destruct Hsh as (Hc & Hd & Hl).
  assert (Hfr : forall rs2 j, j ∉ written (length (t_rows dest)) (zip l rs2) ->
            length rs2 = length l ->
            Forall (fun w => is_Some (normalize (length (t_rows dest)) w.1))
                   (zip l rs2) ->
            t_rows dest !! j = t_rows (index_put dest l v1).2 !! j).
  { intros rs2 j Hj Hlen Hall. unfold index_put.
    destruct (expand_to (length l) (t_ncols dest) v1) as [rs1|]; [|done].
    destruct (dtype_eqb (t_dtype v1) (t_dtype dest)); [|done].
    pose proof (write_rows_frame (t_rows dest) (zip l rs1) j) as Hf.
    destruct (write_rows (t_rows dest) (zip l rs1)) as [o rows']. simpl in *.
    symmetry. apply Hf. intros Hw. apply Hj. by eapply written_subset. }
  revert Hfr Hc Hd Hl. generalize (index_put dest l v1).2. intros d Hfr Hc Hd Hl.
  unfold index_put at 1 2. rewrite Hc, Hd.
  unfold index_put.
  destruct (expand_to (length l) (t_ncols dest) v2) as [rs2|] eqn:E; [|done].
  destruct (dtype_eqb (t_dtype v2) (t_dtype dest)); [|done].
  pose proof (write_rows_ok (t_rows d) (zip l rs2)) as Hok.
  pose proof (write_rows_agree (t_rows dest) (t_rows d) (zip l rs2)) as Hag.
  destruct (write_rows (t_rows d) (zip l rs2)) as [o rows'] eqn:Ew. simpl.
  intros ->. rewrite Hl in Hok. specialize (Hok eq_refl).
  rewrite <- Hag; [done|done|].
  intros j Hj. apply (Hfr rs2); [done| |done]. by eapply expand_to_length.
Qed.

(** ** Methods and the object state *)

Lemma set_grads_same (self : TRAKer) : set_grads self (grads self) = self.
Proof. by destruct self. Qed.

Lemma store_step_refl (self : TRAKer) : store_step self self.
Proof. split; [by rewrite set_grads_same|done]. Qed.

Lemma store_step_trans (s1 s2 s3 : TRAKer) :
  store_step s1 s2 -> store_step s2 s3 -> store_step s1 s3.
Proof.
  intros (E1 & S1 & D1) (E2 & S2 & D2). repeat split; [|congruence..].
  rewrite E2, E1. done.
Qed.

Lemma bind_step {A B} (c : M A) (k : A -> M B) (self : TRAKer) :
  (forall s, store_step s (c s).2) -> (forall a s, store_step s (k a s).2) ->
  store_step self (bind c k self).2.
Proof.
  intros Hc Hk. unfold bind. specialize (Hc self).
  destruct (c self) as [[a|e] s']; simpl in *; [|done].
  eapply store_step_trans; [exact Hc|apply Hk].
Qed.

Lemma record_grads_unfold (g : Tensor) inds (self : TRAKer) :
  record_grads g inds self =
  match project (projector self) (to (grad_dtype self) g) with
  | Raise e => (Raise e, self)
  | Ok p => ((setitem (grads self) inds p).1,
             set_grads self (setitem (grads self) inds p).2)
  end.
Proof.
  unfold record_grads, detach_clone_cpu.
  destruct (project (projector self) (to (grad_dtype self) g)); [|done].
  by destruct (setitem (grads self) inds a).
Qed.

Lemma record_grads_step (g : Tensor) inds (self : TRAKer) :
  store_step self (record_grads g inds self).2.
Proof.
  rewrite record_grads_unfold.
  destruct (project (projector self) (to (grad_dtype self) g)) as [p|e]; simpl;
    [|apply store_step_refl].
  destruct (setitem_shape (grads self) inds p) as [Hs Hd].
  by repeat split.
Qed.


Lemma record_grads_rows_frame (g : Tensor) (l : list Z) (self : TRAKer) (j : nat) :
  Forall (fun i => 0 <= i) l -> Z.of_nat j ∉ l ->
  t_rows (grads (record_grads g (Some l) self).2) !! j
  = t_rows (grads self) !! j.
Proof.
  intros Hpos Hj. rewrite record_grads_unfold.
  destruct (project (projector self) (to (grad_dtype self) g)) as [p|e]; simpl;
    [|done].
  by apply index_put_frame.
Qed.

(** Whatever the indices, negative ones included: a row that no index of
    [l] addresses is left as it was. *)
Lemma record_grads_rows_frame_any (g : Tensor) (l : list Z) (self : TRAKer) j :
  (forall i, i ∈ l -> normalize (length (t_rows (grads self))) i <> Some j) ->
  t_rows (grads (record_grads g (Some l) self).2) !! j
  = t_rows (grads self) !! j.
Proof.
  intros Hj. rewrite record_grads_unfold.
  destruct (project (projector self) (to (grad_dtype self) g)) as [p|e]; simpl;
    [|done].
  unfold index_put.
  destruct (expand_to (length l) (t_ncols (grads self)) p) as [rs|]; [|done].
  destruct (dtype_eqb (t_dtype p) (t_dtype (grads self))); [|done].
  pose proof (write_rows_frame (t_rows (grads self)) (zip l rs) j) as Hf.
  destruct (write_rows (t_rows (grads self)) (zip l rs)) as [o rows'].
  simpl in *. apply Hf.
  intros (i & Hi & Hn)%written_normalize. by apply (Hj i).
Qed.

Lemma _featurize_functional_step env out_fn weights buffers batch inds self :
  store_step self
    (_featurize_functional env out_fn weights buffers batch inds self).2.
Proof.
  unfold _featurize_functional.
  destruct (functorch_available env); [|apply store_step_refl].
  apply bind_step; [intros; apply store_step_refl|].
  intros G s. apply bind_step; [apply record_grads_step|].
  intros; apply store_step_refl.
Qed.

Lemma _featurize_iter_state env out_fn model batch batch_size self :
  (_featurize_iter env out_fn model batch batch_size self).2 = self.
Proof. done. Qed.

Lemma _get_loss_grad_functional_state func_model weights buffers batch inds self :
  (_get_loss_grad_functional func_model weights buffers batch inds self).2 = self.
Proof.
  unfold _get_loss_grad_functional.
  by destruct batch as [|? [|? [|]]].
Qed.

Lemma featurize_step env out_fn loss_fn model batch inds functional self :
  store_step self
    (featurize env out_fn loss_fn model batch inds functional self).2.
Proof.
  unfold featurize. destruct functional.
  - destruct model as [m|fm w b]; [apply store_step_refl|].
    apply bind_step; [intros; apply _featurize_functional_step|].
    intros _ s. apply bind_step; [|intros; apply store_step_refl].
    intros s'. rewrite _get_loss_grad_functional_state. apply store_step_refl.
  - apply bind_step; intros; apply store_step_refl.
Qed.

Lemma run_call_step env c self : store_step self (run_call env c self).
Proof.
  destruct c; simpl.
  - apply featurize_step.
  - apply _featurize_functional_step.
  - apply store_step_refl.
  - apply record_grads_step.
  - rewrite _get_loss_grad_functional_state. apply store_step_refl.
  - apply store_step_refl.
  - apply store_step_refl.
Qed.

Lemma run_calls_step env cs self : store_step self (run_calls env cs self).
Proof.
  revert self. induction cs as [|c cs IH]; intros self; simpl.
  - apply store_step_refl.
  - eapply store_step_trans; [apply run_call_step|apply IH].
Qed.

(** The iterative branch never returns and never touches the object. *)
Lemma featurize_iter_raises env out_fn loss_fn model batch inds self :
  exists e,
    featurize env out_fn loss_fn model batch inds false self = (Raise e, self).
Proof.
  unfold featurize, bind, throw. cbv iota.
  destruct (_featurize_iter env out_fn model batch (inds_as_batch_size inds) self)
    as [[v|e] s'] eqn:E;
  pose proof (_featurize_iter_state env out_fn model batch
                (inds_as_batch_size inds) self) as Hs;
  rewrite E in Hs; simpl in Hs; subst s'; eauto.
Qed.

Lemma _featurize_functional_value env out_fn weights buffers batch inds self v s' :
  _featurize_functional env out_fn weights buffers batch inds self = (Ok v, s') ->
  v = PyNone.
Proof.
  unfold _featurize_functional, bind, call, ret, throw.
  destruct (functorch_available env); [|done].
  destruct (vmap (functorch_grad out_fn weights buffers) batch); [|done].
  destruct (record_grads _ inds self) as [[[]|e] s1]; [|done].
  by intros [= <- _].
Qed.

Lemma _get_loss_grad_functional_value func_model weights buffers batch inds self v s' :
  _get_loss_grad_functional func_model weights buffers batch inds self = (Ok v, s') ->
  exists l, v = PyTensor l.
Proof.
  unfold _get_loss_grad_functional.
  destruct batch as [|images [|labels [|]]]; try done.
  destruct (call_func_model func_model weights buffers images) as [logits|];
    simpl; [|done].
  destruct (get_out_to_loss (model_output_fn self) logits labels) as [l|];
    simpl; [|done].
  intros [= <- _]. by eexists.
Qed.

(** ** Construction *)

(** C7.  Immediately after construction the Feature Store is the all-zero
    table of shape [(train_set_size, proj_dim)]: it is [zeros] of these two
    sizes, every entry of every row is zero, and every row has [proj_dim]
    entries. *)
Theorem init_store_zero
    m model_output_fn_arg proj_dim cls proj_type proj_seed dir dev
    n d load_from (self : TRAKer) :
  __init__ m model_output_fn_arg proj_dim cls proj_type proj_seed dir dev
           n d load_from = Ok self ->
  grads self = zeros n proj_dim
  /\ shape (grads self) = (n, proj_dim)
  /\ (forall i j r x,
        t_rows (grads self) !! i = Some r -> r !! j = Some x -> x = szero)
  /\ wf (grads self).
Proof.
  unfold __init__, rbind.
  destruct (cls proj_seed proj_dim _ proj_type d dev) as [p|e]; [|done].
  intros [= <-]. simpl. repeat split.
  - unfold shape. simpl. by rewrite length_replicate.
  - intros i j r x [-> _]%lookup_replicate [-> _]%lookup_replicate. done.
  - unfold wf. simpl. apply Forall_replicate, length_replicate.
Qed.


(** A projection in another dtype than the table's is refused by the
    indexed store: nothing is written. *)
Lemma record_grads_dtype_mismatch (g : Tensor) (l : list Z) (self : TRAKer) p :
  project (projector self) (to (grad_dtype self) g) = Ok p ->
  t_dtype p <> t_dtype (grads self) ->
  record_grads g (Some l) self = (Raise RuntimeError, self).
Proof.
  intros Hp Hd. rewrite record_grads_unfold, Hp. cbn [setitem].
  unfold index_put.
  destruct (expand_to (length l) (t_ncols (grads self)) p) as [rs|];
    [|cbn [fst snd]; by rewrite set_grads_same].
  destruct (dtype_eqb (t_dtype p) (t_dtype (grads self))) eqn:E.
  - destruct (t_dtype p), (t_dtype (grads self)); done.
  - cbn [fst snd]. by rewrite set_grads_same.
Qed.

(** ** The entry point *)

(** C3 (amended).  When the batched strategy is requested with a model
    triple and [functorch] could not be imported, [featurize] raises
    [NameError], the unbound-name error of the first use of [grad], with
    the object untouched; it does not go on to the iterative strategy. *)
Theorem featurize_functional_unavailable
    env out_fn loss_fn func_model weights buffers batch inds (self : TRAKer) :
  functorch_available env = false ->
  featurize env out_fn loss_fn (AsTriple func_model weights buffers)
            batch inds true self
  = (Raise NameError, self).
Proof.
  intros Hf. unfold featurize, _featurize_functional, bind, throw.
  by rewrite Hf.
Qed.

(** C10.  A call of [featurize] that returns has taken the functional
    branch and returns [None]; the loss quantity that
    [_get_loss_grad_functional] computed is a tensor, so it is not what is
    returned, and the object after the call is the object as
    [_featurize_functional] left it: the loss quantity is neither stored on
    it nor written to its table. *)
Theorem featurize_returns_none
    env out_fn loss_fn model_arg batch inds functional (self self' : TRAKer) v :
  featurize env out_fn loss_fn model_arg batch inds functional self
  = (Ok v, self') ->
  v = PyNone
  /\ functional = true
  /\ exists func_model weights buffers loss_grads,
       model_arg = AsTriple func_model weights buffers
       /\ _featurize_functional env out_fn weights buffers batch inds self
          = (Ok PyNone, self')
       /\ _get_loss_grad_functional func_model weights buffers batch inds self'
          = (Ok (PyTensor loss_grads), self')
       /\ v <> PyTensor loss_grads.
Proof.
  destruct functional.
  - unfold featurize. destruct model_arg as [m|fm w b]; [done|].
    unfold bind, ret.
    destruct (_featurize_functional env out_fn w b batch inds self)
      as [[a|e] s1] eqn:E1; [|done].
    pose proof (_get_loss_grad_functional_state fm w b batch inds s1) as Hs.
    destruct (_get_loss_grad_functional fm w b batch inds s1)
      as [[lg|e] s2] eqn:E2; [|done].
    simpl in Hs. subst s2. intros [= <- <-].
    apply _featurize_functional_value in E1 as Ha. subst a.
    apply _get_loss_grad_functional_value in E2 as Hl. destruct Hl as [l ->].
    repeat split. by exists fm, w, b, l.
  - destruct (featurize_iter_raises env out_fn loss_fn model_arg batch inds self)
      as [e ->]. done.
Qed.

(** ** The store under [record_grads] *)

(** C5.  When [record_grads] is called twice with the same [inds] and the
    second call returns, the object is what the second call alone would
    have left from the start: nothing of the first call survives, nothing
    is added up.  With distinct sample indices, row [inds[k]] holds row [k]
    of the projection of the second matrix as the store broadcasts it,
    which is that projection itself when it has [len(inds)] rows of the
    width of the table. *)
Theorem record_grads_overwrites
    (self : TRAKer) (g1 g2 : Tensor) (inds : list Z) :
  (record_grads g2 (Some inds) (record_grads g1 (Some inds) self).2).1 = Ok tt ->
  record_grads g2 (Some inds) (record_grads g1 (Some inds) self).2
  = record_grads g2 (Some inds) self
  /\ exists p2 rs,
       project (projector self) (to (grad_dtype self) g2) = Ok p2
       /\ expand_to (length inds) (t_ncols (grads self)) p2 = Some rs
       /\ (t_ncols p2 = t_ncols (grads self) ->
           length (t_rows p2) = length inds -> rs = t_rows p2)
       /\ forall k i r,
            Forall (fun i => 0 <= i) inds -> NoDup inds ->
            inds !! k = Some i -> rs !! k = Some r ->
            t_rows (grads (record_grads g2 (Some inds)
                             (record_grads g1 (Some inds) self).2).2)
              !! Z.to_nat i = Some r.
Proof.
  intros Hok.
  assert (Heq : record_grads g2 (Some inds) (record_grads g1 (Some inds) self).2
                = record_grads g2 (Some inds) self).
  { revert Hok. rewrite (record_grads_unfold g1).
    destruct (project (projector self) (to (grad_dtype self) g1)) as [p1|e1];
      simpl; [|done].
    rewrite !(record_grads_unfold g2). simpl.
    destruct (project (projector self) (to (grad_dtype self) g2)) as [p2|e2];
      simpl; [|done].
    intros Hok. by rewrite index_put_overwrite. }
  split; [done|]. rewrite Heq in Hok |- *. revert Hok.
  rewrite record_grads_unfold.
  destruct (project (projector self) (to (grad_dtype self) g2)) as [p2|e2];
    simpl; [|done].
  unfold index_put.
  destruct (expand_to (length inds) (t_ncols (grads self)) p2) as [rs|] eqn:E;
    [|done].
  destruct (dtype_eqb (t_dtype p2) (t_dtype (grads self))); [|done].
  pose proof (write_rows_lookup (t_rows (grads self)) (zip inds rs)) as Hlk.
  pose proof (write_rows_ok (t_rows (grads self)) (zip inds rs)) as Hall.
  destruct (write_rows (t_rows (grads self)) (zip inds rs)) as [o rows'].
  cbn [fst snd grads set_grads t_rows] in *.
  intros ->. exists p2, rs. split; [done|]. split; [done|]. split.
  { intros Hc Hl. revert E. unfold expand_to, expand_cols, expand_rows.
    rewrite Hc, Nat.eqb_refl. simpl. rewrite Hl, Nat.eqb_refl. congruence. }
  intros k i r Hpos Hnd Hk Hr.
  assert (Hz : zip inds rs !! k = Some (i, r)).
  { rewrite lookup_zip_with, Hk. simpl. by rewrite Hr. }
  apply (Hlk k i r); [done|by apply written_NoDup|done|].
  specialize (Hall eq_refl).
  rewrite Forall_lookup in Hall. destruct (Hall k _ Hz) as [q Hq]. simpl in Hq.
  rewrite Hq. f_equal. apply normalize_nonneg in Hq; [done|].
  rewrite Forall_lookup in Hpos. by apply (Hpos k).
Qed.

Lemma _featurize_functional_rows_frame
    env out_fn weights buffers batch (l : list Z) (self : TRAKer) (j : nat) :
  Forall (fun i => 0 <= i) l -> Z.of_nat j ∉ l ->
  t_rows (grads (_featurize_functional env out_fn weights buffers batch
                   (Some l) self).2) !! j
  = t_rows (grads self) !! j.
Proof.
  intros Hpos Hj. unfold _featurize_functional, bind, call, ret, throw.
  destruct (functorch_available env); [|done].
  destruct (vmap (functorch_grad out_fn weights buffers) batch) as [G|e]; [|done].
  pose proof (record_grads_rows_frame (vectorize_and_ignore_buffers weights G)
                l self j Hpos Hj) as Hf.
  by destruct (record_grads _ (Some l) self) as [[[]|e] s1].
Qed.

Lemma featurize_rows_frame
    env out_fn loss_fn model_arg batch (l : list Z) functional (self : TRAKer)
    (j : nat) :
  Forall (fun i => 0 <= i) l -> Z.of_nat j ∉ l ->
  t_rows (grads (featurize env out_fn loss_fn model_arg batch (Some l)
                   functional self).2) !! j
  = t_rows (grads self) !! j.
Proof.
  intros Hpos Hj. destruct functional.
  - unfold featurize. destruct model_arg as [m|fm w b]; [done|].
    unfold bind, ret.
    pose proof (_featurize_functional_rows_frame env out_fn w b batch l self j
                  Hpos Hj) as Hf.
    destruct (_featurize_functional env out_fn w b batch (Some l) self)
      as [[a|e] s1]; [|done].
    pose proof (_get_loss_grad_functional_state fm w b batch (Some l) s1) as Hs.
    destruct (_get_loss_grad_functional fm w b batch (Some l) s1)
      as [[lg|e] s2]; simpl in *; by subst s2.
  - by destruct (featurize_iter_raises env out_fn loss_fn model_arg batch
                   (Some l) self) as [e ->].
Qed.

(** C6.  With sample indices [inds] (none negative), [record_grads] leaves
    every row whose index is not in [inds] as it was, whether it returns or
    raises, and so does [featurize]; from an all-zero table these rows are
    still zero afterwards; and the shape of the table is the same after
    any sequence of calls on the object. *)
Theorem record_grads_frame (env : Env) (self : TRAKer) (inds : list Z) :
  Forall (fun i => 0 <= i) inds ->
  (forall g j, Z.of_nat j ∉ inds ->
     t_rows (grads (record_grads g (Some inds) self).2) !! j
     = t_rows (grads self) !! j)
  /\ (forall out_fn loss_fn model_arg batch functional j, Z.of_nat j ∉ inds ->
       t_rows (grads (featurize env out_fn loss_fn model_arg batch (Some inds)
                        functional self).2) !! j
       = t_rows (grads self) !! j)
  /\ (forall n p out_fn loss_fn model_arg batch functional j,
       grads self = zeros n p -> (j < n)%nat -> Z.of_nat j ∉ inds ->
       t_rows (grads (featurize env out_fn loss_fn model_arg batch (Some inds)
                        functional self).2) !! j
       = Some (replicate p szero))
  /\ (forall cs, shape (grads (run_calls env cs self)) = shape (grads self)).
Proof.
  intros Hpos. repeat split.
  - intros g j Hj. by apply record_grads_rows_frame.
  - intros. by apply featurize_rows_frame.
  - intros n p out_fn loss_fn model_arg batch functional j Hz Hlt Hj.
    rewrite featurize_rows_frame by done. rewrite Hz. simpl.
    by apply lookup_replicate.
  - intros cs. by destruct (run_calls_step env cs self) as (_ & -> & _).
Qed.

(** ** Running a call again *)


Lemma _get_loss_grad_functional_store func_model weights buffers batch inds self t :
  _get_loss_grad_functional func_model weights buffers batch inds
    (set_grads self t)
  = ((_get_loss_grad_functional func_model weights buffers batch inds self).1,
     set_grads self t).
Proof.
  unfold _get_loss_grad_functional.
  by destruct batch as [|? [|? [|]]].
Qed.






(** ** Batches that do not fit *)

Lemma traverse_length {A B} (f : A -> result B) (l : list A) bs :
  traverse f l = Ok bs -> length bs = length l.
Proof.
  revert bs. induction l as [|a l IH]; intros bs; simpl; [by intros [= <-]|].
  unfold rbind. destruct (f a) as [b|]; [|done].
  destruct (traverse f l) as [bs'|]; [|done].
  intros [= <-]. simpl. f_equal. by apply IH.
Qed.

Lemma vmap_ragged {A} (f : list slice -> result A) (batch : Batch) :
  ragged batch -> vmap f batch = Raise ValueError.
Proof.
  intros (t1 & t2 & H1 & H2 & Hne). unfold vmap.
  destruct batch as [|t ts]; [done|].
  destruct (forallb _ ts) eqn:E; [|done]. exfalso.
  rewrite forallb_forall in E.
  assert (Hall : forall t', t' ∈ t :: ts -> length t' = length t).
  { intros t' [->|Hin]%elem_of_cons; [done|].
    apply Nat.eqb_eq, E. by apply list_elem_of_In. }
  apply Hne. by rewrite (Hall t1), (Hall t2).
Qed.

Lemma vmap_length {A} (f : list slice -> result A) (batch : Batch) B G :
  batch_of_size batch B -> vmap f batch = Ok G -> length G = B.
Proof.
  intros [Hne Hall]. unfold vmap. destruct batch as [|t ts]; [done|].
  apply Forall_cons in Hall as [Ht _].
  destruct (forallb _ ts); [|done].
  intros Hl%traverse_length. by rewrite Hl, length_map, length_seq.
Qed.

(** C4 (amended).  With a projector that returns one row per input row: if
    the tensors of the batch disagree on their leading dimension, or the
    batch has a number of samples that is neither [len(inds)] nor 1, then
    [featurize] raises and the object, hence the table, is exactly as
    before the call.  The exception is that of the step that fails: on the
    batched path with [functorch] present it is [ValueError] from [vmap]
    for disagreeing leading dimensions, and [RuntimeError] from the indexed
    store when extraction and projection went through. *)
Theorem featurize_mismatch_fails
    env out_fn loss_fn model_arg batch inds functional (self : TRAKer) :
  row_preserving (projector self) ->
  ragged batch
  \/ (exists B l, batch_of_size batch B /\ inds = Some l
                 /\ B <> length l /\ B <> 1%nat) ->
  exists e,
    featurize env out_fn loss_fn model_arg batch inds functional self
    = (Raise e, self)
    /\ (functional = true -> functorch_available env = true ->
        forall func_model weights buffers,
          model_arg = AsTriple func_model weights buffers ->
          (ragged batch -> e = ValueError)
          /\ (forall G p,
                vmap (functorch_grad out_fn weights buffers) batch = Ok G ->
                project (projector self)
                  (to (grad_dtype self) (vectorize_and_ignore_buffers weights G))
                = Ok p ->
                e = RuntimeError)).
Proof.
  intros Hrp Hbad. destruct functional; cycle 1.
  { destruct (featurize_iter_raises env out_fn loss_fn model_arg batch inds self)
      as [e He]. exists e. by split. }
  unfold featurize. destruct model_arg as [m|fm w b].
  { exists TypeError. by split. }
  unfold _featurize_functional.
  destruct (functorch_available env) eqn:Ef.
  2:{ exists NameError. by split. }
  unfold bind, call, ret.
  destruct (vmap (functorch_grad out_fn w b) batch) as [G|e0] eqn:Ev.
  2:{ exists e0. split; [done|]. intros _ _ fm' w' b' [= <- <- <-]. split.
      - intros Hr. rewrite (vmap_ragged _ _ Hr) in Ev. congruence.
      - intros G p. by rewrite Ev. }
  destruct Hbad as [Hr|(B & l & HB & -> & HBl & HB1)].
  { by rewrite (vmap_ragged _ _ Hr) in Ev. }
  apply (vmap_length _ _ _ _ HB) in Ev as HG.
  rewrite record_grads_unfold.
  destruct (project (projector self)
              (to (grad_dtype self) (vectorize_and_ignore_buffers w G)))
    as [p|e1] eqn:Ep.
  2:{ exists e1. split; [done|]. intros _ _ fm' w' b' [= <- <- <-]. split.
      - intros Hr. rewrite (vmap_ragged _ _ Hr) in Ev. congruence.
      - intros G' p'. rewrite Ev. intros [= <-]. by rewrite Ep. }
  apply Hrp in Ep as Hrows. simpl in Hrows. rewrite !length_map, HG in Hrows.
  simpl. unfold index_put.
  destruct (expand_to (length l) (t_ncols (grads self)) p) as [rs|] eqn:Ee.
  { apply expand_to_rows in Ee. lia. }
  simpl. rewrite set_grads_same. exists RuntimeError. split; [done|].
  intros _ _ fm' w' b' [= <- <- <-]. split; [|done].
  intros Hr. rewrite (vmap_ragged _ _ Hr) in Ev. congruence.
Qed.

(** The projector of [trak.projectors] keeps the shape contract. *)
Lemma BasicProjector_row_preserving seed proj_dim grad_dim_arg proj_type d dev p :
  BasicProjector seed proj_dim grad_dim_arg proj_type d dev = Ok p ->
  row_preserving p.
Proof.
  unfold BasicProjector.
  destruct ((grad_dim_arg =? 0)%nat || (proj_dim =? 0)%nat); [done|].
  intros [= <-] g q. simpl.
  destruct (t_ncols g =? grad_dim_arg)%nat; [|done].
  intros [= <-]. simpl. apply length_map.
Qed.

End Facts.

(** * Further properties of the methods *)

Section Coverage.
Context `{Collaborators}.

(** ** Outcomes of the indexed store *)

Lemma dtype_eqb_eq (a b : DType) : dtype_eqb a b = true <-> a = b.
Proof. destruct a, b; simpl; split; congruence. Qed.

Lemma normalize_is_Some (n : nat) (i : Z) :
  is_Some (normalize n i) <-> in_range n i.
Proof.
  unfold normalize, in_range.
  destruct (0 <=? i) eqn:E1, (i <? Z.of_nat n) eqn:E2; simpl;
    try destruct (- Z.of_nat n <=? i) eqn:E3; simpl;
    try destruct (i <? 0) eqn:E4; simpl;
    split; intros Hx; try (by eexists); try lia;
    by destruct Hx.
Qed.

Lemma expand_rows_is_Some (K : nat) (rs : list (list scalar)) :
  is_Some (expand_rows K rs) <-> length rs = K \/ length rs = 1%nat.
Proof.
  unfold expand_rows. destruct (Nat.eqb_spec (length rs) K) as [Hr|Hr].
  - split; [by left|by eexists].
  - destruct rs as [|r [|r' rs]]; simpl in *.
    + split; [by intros []|lia].
    + split; [by right|by eexists].
    + split; [by intros []|lia].
Qed.

Lemma expand_to_is_Some (K P : nat) (v : Tensor) :
  is_Some (expand_to K P v) <-> broadcastable K P v.
Proof.
  unfold expand_to, broadcastable, expand_cols.
  destruct (Nat.eqb_spec (t_ncols v) P) as [Hc|Hc]; simpl.
  - rewrite expand_rows_is_Some. tauto.
  - destruct (Nat.eqb_spec (t_ncols v) 1) as [Hc1|Hc1]; simpl.
    + rewrite expand_rows_is_Some, length_map. tauto.
    + split; [by intros []|tauto].
Qed.

Lemma write_rows_outcome (rows : list (list scalar)) ws :
  (Forall (fun w => in_range (length rows) w.1) ws ->
   (write_rows rows ws).1 = Ok tt)
  /\ (~ Forall (fun w => in_range (length rows) w.1) ws ->
      (write_rows rows ws).1 = Raise IndexError).
Proof.
  revert rows. induction ws as [|[i r] ws IH]; intros rows; simpl.
  - split; [done|]. intros Hn. destruct Hn. constructor.
  - destruct (normalize (length rows) i) as [k|] eqn:E.
    + destruct (IH (<[k := r]> rows)) as [IH1 IH2].
      rewrite length_insert in IH1, IH2. split.
      * intros [_ Hall]%Forall_cons. by apply IH1.
      * intros Hn. apply IH2. intros Hall. apply Hn. constructor; [|done].
        simpl. apply normalize_is_Some. by eexists.
    + split; [|done]. intros [Hi _]%Forall_cons. simpl in Hi.
      apply normalize_is_Some in Hi. rewrite E in Hi. by destruct Hi.
Qed.

Lemma Forall_zip_fst (P : Z -> Prop) (l : list Z) (rs : list (list scalar)) :
  length rs = length l ->
  Forall (fun w => P w.1) (zip l rs) <-> Forall P l.
Proof.
  revert rs. induction l as [|i l IH]; intros [|r rs]; simpl; try done.
  intros [= Hl]. rewrite !Forall_cons. simpl. by rewrite IH.
Qed.

(** X1.  Once the projector has returned [p], the outcome of [record_grads]
    with a list of indices that fit 64-bit integers is decided by shapes,
    element types and index bounds. *)
Theorem record_grads_outcome (g : Tensor) (l : list Z) (self : TRAKer) p :
  project (projector self) (to (grad_dtype self) g) = Ok p ->
  Forall int64 l ->
  ((record_grads g (Some l) self).1 = Ok tt <->
     (broadcastable (length l) (t_ncols (grads self)) p
      /\ t_dtype p = t_dtype (grads self))
     /\ Forall (in_range (length (t_rows (grads self)))) l)
  /\ ((record_grads g (Some l) self).1 = Raise IndexError <->
       (broadcastable (length l) (t_ncols (grads self)) p
        /\ t_dtype p = t_dtype (grads self))
       /\ ~ Forall (in_range (length (t_rows (grads self)))) l)
  /\ ((record_grads g (Some l) self).1 = Raise RuntimeError <->
       ~ (broadcastable (length l) (t_ncols (grads self)) p
          /\ t_dtype p = t_dtype (grads self))).
Proof.
  intros Hp _. rewrite record_grads_unfold, Hp. cbn [fst setitem].
  unfold index_put.
  pose proof (expand_to_is_Some (length l) (t_ncols (grads self)) p) as Hb.
  pose proof (dtype_eqb_eq (t_dtype p) (t_dtype (grads self))) as Hd.
  destruct (expand_to (length l) (t_ncols (grads self)) p) as [rs|] eqn:E.
  2:{ cbn [fst]. assert (~ broadcastable (length l) (t_ncols (grads self)) p)
        by (intros Hx%Hb; by destruct Hx).
      intuition congruence. }
  assert (Hbr : broadcastable (length l) (t_ncols (grads self)) p)
    by (apply Hb; by eexists).
  destruct (dtype_eqb (t_dtype p) (t_dtype (grads self))) eqn:Ed.
  2:{ cbn [fst]. assert (t_dtype p <> t_dtype (grads self))
        by (intros Hx%Hd; congruence).
      intuition congruence. }
  assert (Hdt : t_dtype p = t_dtype (grads self)) by by apply Hd.
  destruct (write_rows_outcome (t_rows (grads self)) (zip l rs)) as [H1 H2].
  rewrite Forall_zip_fst in H1, H2 by (by eapply expand_to_length).
  destruct (write_rows (t_rows (grads self)) (zip l rs)) as [o rows'].
  cbn [fst] in *.
  destruct (decide (Forall (in_range (length (t_rows (grads self)))) l))
    as [Hall|Hall].
  - rewrite (H1 Hall). intuition congruence.
  - rewrite (H2 Hall). intuition congruence.
Qed.

(** X2.  A [record_grads] that raises anything but [IndexError] has written
    nothing, and so has a [_featurize_functional] that does. *)
Theorem record_grads_atomic (g : Tensor) inds (self self' : TRAKer) e :
  e <> IndexError ->
  (record_grads g inds self = (Raise e, self') -> self' = self)
  /\ (forall env out_fn weights buffers batch,
        _featurize_functional env out_fn weights buffers batch inds self
        = (Raise e, self') -> self' = self).
Proof.
  intros He.
  assert (Hrec : forall g0 s', record_grads g0 inds self = (Raise e, s') ->
                               s' = self).
  { intros g0 s'. rewrite record_grads_unfold.
    destruct (project (projector self) (to (grad_dtype self) g0)) as [p|e0];
      [|congruence].
    destruct inds as [l|]; cbn [setitem].
    - unfold index_put.
      destruct (expand_to (length l) (t_ncols (grads self)) p) as [rs|];
        [|cbn [fst snd]; rewrite set_grads_same; congruence].
      destruct (dtype_eqb (t_dtype p) (t_dtype (grads self)));
        [|cbn [fst snd]; rewrite set_grads_same; congruence].
      destruct (write_rows_outcome (t_rows (grads self)) (zip l rs)) as [H1 H2].
      destruct (decide (Forall (fun w => in_range (length (t_rows (grads self)))
                                            w.1) (zip l rs))) as [Hall|Hall].
      + specialize (H1 Hall).
        destruct (write_rows (t_rows (grads self)) (zip l rs)) as [o rows'].
        cbn [fst snd] in *. congruence.
      + specialize (H2 Hall).
        destruct (write_rows (t_rows (grads self)) (zip l rs)) as [o rows'].
        cbn [fst snd] in *. congruence.
    - unfold copy_all.
      destruct (expand_to (length (t_rows (grads self))) (t_ncols (grads self)) p);
        cbn [fst snd]; [congruence|rewrite set_grads_same; congruence]. }
  split; [apply Hrec|].
  intros env out_fn weights buffers batch.
  unfold _featurize_functional, bind, call, ret, throw.
  destruct (functorch_available env); [|congruence].
  destruct (vmap (functorch_grad out_fn weights buffers) batch) as [G|e0];
    [|congruence].
  destruct (record_grads (vectorize_and_ignore_buffers weights G) inds self)
    as [[[]|e1] s1] eqn:E; [congruence|].
  intros [= -> ->]. by apply (Hrec _ _ E).
Qed.

(** ** What the rows hold after a store *)

Lemma write_rows_lookup_last (rows : list (list scalar)) ws (j : nat) :
  (write_rows rows ws).2 !! j
  = match last_write (length rows) ws j with
    | Some r => Some r
    | None => rows !! j
    end.
Proof.
  revert rows. induction ws as [|[i r] ws IH]; intros rows; simpl; [done|].
  destruct (normalize (length rows) i) as [k|] eqn:E; [|done].
  rewrite IH, length_insert.
  destruct (last_write (length rows) ws j); [done|].
  destruct (decide (k = j)) as [->|Hne].
  - apply list_lookup_insert_eq. by apply normalize_lt in E.
  - by apply list_lookup_insert_ne.
Qed.

Lemma last_write_written (n : nat) ws (j : nat) r :
  last_write n ws j = Some r -> j ∈ written n ws /\ r ∈ ws.*2.
Proof.
  induction ws as [|[i r'] ws IH]; simpl; [done|].
  destruct (normalize n i) as [k|]; [|done].
  destruct (last_write n ws j) as [r0|].
  - intros [= ->]. destruct (IH eq_refl) as [H1 H2].
    split; apply elem_of_cons; by right.
  - destruct (decide (k = j)) as [->|]; [|done].
    intros [= ->]. split; apply elem_of_cons; by left.
Qed.

Lemma written_last_write (n : nat) ws (j : nat) :
  j ∈ written n ws -> is_Some (last_write n ws j).
Proof.
  induction ws as [|[i r'] ws IH]; simpl; [by intros ?%elem_of_nil|].
  destruct (normalize n i) as [k|]; [|by intros ?%elem_of_nil].
  intros [->|Hj]%elem_of_cons.
  - destruct (last_write n ws k); [by eexists|].
    rewrite decide_True by done. by eexists.
  - destruct (IH Hj) as [r ->]. by eexists.
Qed.

Lemma index_put_ok (dest : Tensor) (l : list Z) (v : Tensor) :
  (index_put dest l v).1 = Ok tt ->
  exists rs,
    expand_to (length l) (t_ncols dest) v = Some rs
    /\ (write_rows (t_rows dest) (zip l rs)).1 = Ok tt
    /\ (index_put dest l v).2
       = mkTensor (t_dtype dest) (t_ncols dest)
           (write_rows (t_rows dest) (zip l rs)).2.
Proof.
  unfold index_put.
  destruct (expand_to (length l) (t_ncols dest) v) as [rs|]; [|done].
  destruct (dtype_eqb (t_dtype v) (t_dtype dest)); [|done].
  destruct (write_rows (t_rows dest) (zip l rs)) as [o rows'] eqn:Ew.
  cbn [fst snd]. intros ->. exists rs. by rewrite Ew.
Qed.

(** The outcome of an indexed store depends on the table only through its
    shape and element type. *)
Lemma index_put_outcome_shape (d1 d2 : Tensor) (l : list Z) (v : Tensor) :
  shape d1 = shape d2 -> t_dtype d1 = t_dtype d2 ->
  (index_put d1 l v).1 = (index_put d2 l v).1.
Proof.
  unfold shape. intros [= Hl Hc] Hd. unfold index_put. rewrite Hc, Hd.
  destruct (expand_to (length l) (t_ncols d2) v) as [rs|]; [|done].
  destruct (dtype_eqb (t_dtype v) (t_dtype d2)); [|done].
  destruct (write_rows_outcome (t_rows d1) (zip l rs)) as [A1 A2].
  destruct (write_rows_outcome (t_rows d2) (zip l rs)) as [B1 B2].
  rewrite Hl in A1, A2.
  destruct (write_rows (t_rows d1) (zip l rs)) as [o1 r1].
  destruct (write_rows (t_rows d2) (zip l rs)) as [o2 r2].
  cbn [fst] in *.
  destruct (decide (Forall (fun w => in_range (length (t_rows d2)) w.1)
                           (zip l rs))) as [Hall|Hall].
  - by rewrite A1, B1.
  - by rewrite A2, B2.
Qed.

(** X3.  Two returning calls of [record_grads] whose indices address different
    rows can be made in either order: the object is the same afterwards. *)
Theorem record_grads_commute
    (g1 g2 : Tensor) (l1 l2 : list Z) (self : TRAKer) :
  (record_grads g1 (Some l1) self).1 = Ok tt ->
  (record_grads g2 (Some l2) self).1 = Ok tt ->
  (forall i1 i2 k, i1 ∈ l1 -> i2 ∈ l2 ->
     normalize (length (t_rows (grads self))) i1 = Some k ->
     normalize (length (t_rows (grads self))) i2 <> Some k) ->
  record_grads g2 (Some l2) (record_grads g1 (Some l1) self).2
  = record_grads g1 (Some l1) (record_grads g2 (Some l2) self).2
  /\ (record_grads g2 (Some l2) (record_grads g1 (Some l1) self).2).1 = Ok tt.
Proof.
  rewrite !(record_grads_unfold _ _ self).
  destruct (project (projector self) (to (grad_dtype self) g1)) as [p1|] eqn:E1;
    [|done].
  destruct (project (projector self) (to (grad_dtype self) g2)) as [p2|] eqn:E2;
    [|done].
  cbn [fst snd setitem]. intros Hok1 Hok2 Hdis.
  rewrite !record_grads_unfold. cbn [projector grad_dtype grads set_grads].
  rewrite E1, E2. cbn [fst snd setitem].
  destruct (setitem_shape (grads self) (Some l1) p1) as [Hs1 Hd1].
  destruct (setitem_shape (grads self) (Some l2) p2) as [Hs2 Hd2].
  cbn [setitem] in *.
  assert (Hok12 : (index_put (index_put (grads self) l1 p1).2 l2 p2).1 = Ok tt).
  { by rewrite (index_put_outcome_shape _ (grads self)). }
  assert (Hok21 : (index_put (index_put (grads self) l2 p2).2 l1 p1).1 = Ok tt).
  { by rewrite (index_put_outcome_shape _ (grads self)). }
  split; [|done]. rewrite Hok12, Hok21. f_equal.
  destruct (index_put_ok _ _ _ Hok1) as (rs1 & Ex1 & _ & T1).
  destruct (index_put_ok _ _ _ Hok2) as (rs2 & Ex2 & _ & T2).
  destruct (index_put_ok _ _ _ Hok12) as (rs2' & Ex2' & _ & T12).
  destruct (index_put_ok _ _ _ Hok21) as (rs1' & Ex1' & _ & T21).
  rewrite T12, T21. rewrite T1 in Ex2' |- *. rewrite T2 in Ex1' |- *.
  cbn [t_dtype t_ncols t_rows] in *.
  rewrite Ex2 in Ex2'. rewrite Ex1 in Ex1'.
  injection Ex2' as <-. injection Ex1' as <-.
  do 2 f_equal. apply list_eq. intros j.
  rewrite !write_rows_lookup_last, !write_rows_length.
  destruct (last_write _ (zip l2 rs2) j) as [r2|] eqn:L2;
    destruct (last_write _ (zip l1 rs1) j) as [r1|] eqn:L1; try done.
  exfalso.
  apply last_write_written in L1 as [(i1 & Hi1 & Hn1)%written_normalize _].
  apply last_write_written in L2 as [(i2 & Hi2 & Hn2)%written_normalize _].
  by apply (Hdis i1 i2 j).
Qed.

(** X4.  A gradient matrix of a single row is written to every index of the
    list: when the projection is one row of the width of the table, each
    addressed row holds it afterwards. *)
Theorem record_grads_broadcasts_single_row
    (g : Tensor) (l : list Z) (self : TRAKer) p r :
  project (projector self) (to (grad_dtype self) g) = Ok p ->
  t_rows p = [r] -> t_ncols p = t_ncols (grads self) ->
  (record_grads g (Some l) self).1 = Ok tt ->
  forall i k, i ∈ l ->
    normalize (length (t_rows (grads self))) i = Some k ->
    t_rows (grads (record_grads g (Some l) self).2) !! k = Some r.
Proof.
  intros Hp Hr Hc. rewrite record_grads_unfold, Hp.
  cbn [fst snd setitem grads set_grads].
  intros Hok i k Hi Hk.
  destruct (index_put_ok _ _ _ Hok) as (rs & Ex & Hw & ->). cbn [t_rows].
  assert (Hall : Forall (fun r' => r' = r) rs).
  { revert Ex. unfold expand_to, expand_cols, expand_rows.
    rewrite Hc, Nat.eqb_refl, Hr. simpl.
    destruct (length l) as [|[|n]]; intros [= <-].
    - constructor.
    - by repeat constructor.
    - do 2 (constructor; [done|]). by apply Forall_replicate. }
  rewrite write_rows_lookup_last.
  assert (Hin : k ∈ written (length (t_rows (grads self))) (zip l rs)).
  { apply expand_to_length in Ex. clear Hall Hok.
    apply write_rows_ok in Hw. revert rs Ex Hw.
    induction l as [|i' l IH]; intros rs Ex Hw; [by apply elem_of_nil in Hi|].
    destruct rs as [|r' rs]; [done|]. simpl in *.
    apply Forall_cons in Hw as [[q Hq] Hw]. simpl in Hq. rewrite Hq.
    apply elem_of_cons in Hi as [->|Hi].
    - rewrite Hk in Hq. injection Hq as ->. apply elem_of_cons. by left.
    - apply elem_of_cons. right. apply IH; [done|lia|done]. }
  apply written_last_write in Hin as [r' Hr'].
  rewrite Hr'. f_equal.
  apply last_write_written in Hr' as [_ Hr'].
  rewrite Forall_forall in Hall. apply Hall.
  apply list_elem_of_fmap in Hr' as ([i0 r0] & -> & Hin).
  simpl. apply elem_of_zip_r in Hin. done.
Qed.

Lemma write_rows_shift (rows : list (list scalar)) (l : list Z) rs :
  Forall (fun i => 0 <= i < Z.of_nat (length rows)) l ->
  write_rows rows (zip (map (fun i => i - Z.of_nat (length rows)) l) rs)
  = write_rows rows (zip l rs).
Proof.
  revert rows rs. induction l as [|i l IH]; intros rows rs Hall; [done|].
  destruct rs as [|r rs]; [done|].
  apply Forall_cons in Hall as [Hi Hall]. simpl.
  assert (Hn : normalize (length rows) (i - Z.of_nat (length rows))
               = normalize (length rows) i).
  { unfold normalize.
    destruct (0 <=? i - Z.of_nat (length rows)) eqn:E1; [lia|].
    destruct (0 <=? i) eqn:E2; [|lia].
    destruct (i <? Z.of_nat (length rows)) eqn:E3; [|lia].
    destruct (- Z.of_nat (length rows) <=? i - Z.of_nat (length rows)) eqn:E4;
      [|lia].
    destruct (i - Z.of_nat (length rows) <? 0) eqn:E5; [|lia].
    simpl. f_equal. lia. }
  rewrite Hn. destruct (normalize (length rows) i) as [k|]; [|done].
  specialize (IH (<[k := r]> rows) rs). rewrite length_insert in IH.
  by apply IH.
Qed.

(** X5.  Indices counted from the end address the same rows: with every index
    of [l] in [[0, n)] for a table of [n] rows, recording at [i - n] for
    each [i] of [l] is recording at [l]. *)
Theorem record_grads_negative_indices (g : Tensor) (l : list Z) (self : TRAKer) :
  Forall (fun i => 0 <= i < Z.of_nat (length (t_rows (grads self)))) l ->
  record_grads g
    (Some (map (fun i => i - Z.of_nat (length (t_rows (grads self)))) l)) self
  = record_grads g (Some l) self.
Proof.
  intros Hall. rewrite !record_grads_unfold.
  destruct (project (projector self) (to (grad_dtype self) g)) as [p|]; [|done].
  cbn [setitem]. unfold index_put. rewrite length_map.
  destruct (expand_to (length l) (t_ncols (grads self)) p) as [rs|]; [|done].
  destruct (dtype_eqb (t_dtype p) (t_dtype (grads self))); [|done].
  by rewrite write_rows_shift.
Qed.

(** X6.  Without [inds] (the default), [record_grads] replaces the whole table:
    once the projector has returned [p], the call returns exactly when [p]
    broadcasts to the shape of the table and raises [RuntimeError]
    otherwise; a [p] of the shape of the table becomes the table,
    converted to its element type, and no earlier row is left. *)
Theorem record_grads_without_inds (g : Tensor) (self : TRAKer) p :
  project (projector self) (to (grad_dtype self) g) = Ok p ->
  ((record_grads g None self).1 = Ok tt <->
     broadcastable (length (t_rows (grads self))) (t_ncols (grads self)) p)
  /\ ((record_grads g None self).1 = Raise RuntimeError <->
       ~ broadcastable (length (t_rows (grads self))) (t_ncols (grads self)) p)
  /\ (length (t_rows p) = length (t_rows (grads self)) ->
      t_ncols p = t_ncols (grads self) ->
      record_grads g None self
      = (Ok tt,
         set_grads self
           (mkTensor (t_dtype (grads self)) (t_ncols (grads self))
              (map (map (cast (t_dtype (grads self)))) (t_rows p))))).
Proof.
  intros Hp. rewrite !record_grads_unfold, Hp. cbn [fst setitem].
  unfold copy_all.
  pose proof (expand_to_is_Some (length (t_rows (grads self)))
                (t_ncols (grads self)) p) as Hb.
  split; [|split].
  - destruct (expand_to _ _ p) as [rs|]; cbn [fst].
    + split; [intros _; apply Hb; by eexists|done].
    + split; [done|]. intros Hx%Hb. by destruct Hx.
  - destruct (expand_to _ _ p) as [rs|]; cbn [fst].
    + split; [done|]. intros Hn. destruct Hn. apply Hb. by eexists.
    + split; [|done]. intros _ Hx%Hb. by destruct Hx.
  - intros Hr Hc. unfold expand_to, expand_cols, expand_rows.
    rewrite Hc, Nat.eqb_refl. simpl. by rewrite Hr, Nat.eqb_refl.
Qed.

(** ** Invariants of the object *)

(** X7.  No call changes any attribute but the table: after any sequence of
    calls the projector, the model, the parameter vector and its length,
    the dtype, the sizes and [last_ind] are those of the object at the
    start. *)
Theorem calls_keep_attributes (env : Env) (cs : list Call) (self : TRAKer) :
  projector (run_calls env cs self) = projector self
  /\ grad_dtype (run_calls env cs self) = grad_dtype self
  /\ grad_dim (run_calls env cs self) = grad_dim self
  /\ model_params (run_calls env cs self) = model_params self
  /\ model (run_calls env cs self) = model self
  /\ model_output_fn (run_calls env cs self) = model_output_fn self
  /\ train_set_size (run_calls env cs self) = train_set_size self
  /\ device (run_calls env cs self) = device self
  /\ save_dir (run_calls env cs self) = save_dir self
  /\ last_ind (run_calls env cs self) = last_ind self.
Proof.
  destruct (run_calls_step env cs self) as (-> & _ & _). by repeat split.
Qed.

Lemma expand_to_wf (K P : nat) (v : Tensor) rs :
  wf v -> expand_to K P v = Some rs -> Forall (fun r => length r = P) rs.
Proof.
  unfold wf, expand_to, expand_cols. intros Hwf.
  assert (Hrows : forall rs0, Forall (fun r => length r = P) rs0 ->
            forall rs', expand_rows K rs0 = Some rs' ->
            Forall (fun r => length r = P) rs').
  { intros rs0 Hrs0 rs'. unfold expand_rows.
    destruct (length rs0 =? K)%nat; [by intros [= <-]|].
    destruct rs0 as [|r [|]]; intros [= <-].
    apply Forall_replicate. by apply Forall_cons in Hrs0 as [? _]. }
  destruct (Nat.eqb_spec (t_ncols v) P) as [Hc|Hc]; simpl.
  - apply Hrows. by rewrite <- Hc.
  - destruct (t_ncols v =? 1)%nat; simpl; [|done].
    apply Hrows. apply Forall_fmap, Forall_true. intros r. simpl.
    apply length_replicate.
Qed.

Lemma write_rows_wf (P : nat) (rows : list (list scalar)) ws :
  Forall (fun r => length r = P) rows ->
  Forall (fun w => length w.2 = P) ws ->
  Forall (fun r => length r = P) (write_rows rows ws).2.
Proof.
  revert rows. induction ws as [|[i r] ws IH]; intros rows Hr Hw; simpl; [done|].
  apply Forall_cons in Hw as [Hi Hw].
  destruct (normalize (length rows) i) as [k|]; [|done].
  apply IH; [|done]. by apply Forall_insert.
Qed.

Lemma setitem_wf (dest : Tensor) inds (v : Tensor) :
  wf dest -> wf v -> wf (setitem dest inds v).2.
Proof.
  intros Hd Hv. destruct inds as [l|]; cbn [setitem].
  - unfold index_put.
    destruct (expand_to (length l) (t_ncols dest) v) as [rs|] eqn:E; [|done].
    destruct (dtype_eqb (t_dtype v) (t_dtype dest)); [|done].
    pose proof (write_rows_wf (t_ncols dest) (t_rows dest) (zip l rs) Hd) as Hw.
    destruct (write_rows (t_rows dest) (zip l rs)) as [o rows'].
    cbn [snd] in *. unfold wf. cbn [t_rows t_ncols]. apply Hw.
    apply (expand_to_wf _ _ _ _ Hv) in E.
    rewrite Forall_forall in E. rewrite Forall_forall.
    intros [i r] Hin. simpl.
    apply E. by apply elem_of_zip_r in Hin.
  - unfold copy_all.
    destruct (expand_to (length (t_rows dest)) (t_ncols dest) v) as [rs|] eqn:E;
      [|done].
    cbn [snd]. unfold wf. cbn [t_rows t_ncols].
    apply (expand_to_wf _ _ _ _ Hv) in E.
    apply Forall_fmap. eapply Forall_impl; [exact E|].
    intros r Hr. simpl. by rewrite length_map.
Qed.

Lemma record_grads_wf (g : Tensor) inds (self : TRAKer) :
  wf (grads self) -> wf_preserving (projector self) ->
  wf (grads (record_grads g inds self).2).
Proof.
  intros Hs Hp. rewrite record_grads_unfold.
  destruct (project (projector self) (to (grad_dtype self) g)) as [p|] eqn:E;
    [|done].
  cbn [snd grads set_grads]. apply setitem_wf; [done|]. by apply (Hp _ _ E).
Qed.

Lemma run_call_wf (env : Env) (c : Call) (self : TRAKer) :
  wf (grads self) -> wf_preserving (projector self) ->
  wf (grads (run_call env c self)).
Proof.
  intros Hs Hp.
  assert (Hff : forall out_fn w b batch inds,
            wf (grads (_featurize_functional env out_fn w b batch inds self).2)).
  { intros. unfold _featurize_functional, bind, call, ret, throw.
    destruct (functorch_available env); [|done].
    destruct (vmap (functorch_grad out_fn w b) batch) as [G|]; [|done].
    pose proof (record_grads_wf (vectorize_and_ignore_buffers w G) inds self
                  Hs Hp) as Hw.
    by destruct (record_grads _ inds self) as [[[]|e] s1]. }
  destruct c; cbn [run_call]; try done.
  - destruct functional.
    + unfold featurize. destruct model0 as [m|fm w b]; [done|].
      unfold bind, ret. specialize (Hff out_fn w b batch inds).
      destruct (_featurize_functional env out_fn w b batch inds self)
        as [[a|e] s1]; [|done].
      pose proof (_get_loss_grad_functional_state fm w b batch inds s1) as Hst.
      destruct (_get_loss_grad_functional fm w b batch inds s1)
        as [[lg|e] s2]; cbn [snd] in *; by subst s2.
    + by destruct (featurize_iter_raises env out_fn loss_fn model0 batch inds
                     self) as [e ->].
  - by apply record_grads_wf.
  - by rewrite _get_loss_grad_functional_state.
Qed.

(** X8.  The rows of the table keep their width: with a projector that returns
    well-formed tensors, a table whose rows all have [t_ncols] entries
    still has such rows after any sequence of calls. *)
Theorem calls_keep_rows_wf (env : Env) (cs : list Call) (self : TRAKer) :
  wf (grads self) -> wf_preserving (projector self) ->
  wf (grads (run_calls env cs self)).
Proof.
  revert self. induction cs as [|c cs IH]; intros self Hs Hp; [done|].
  cbn [run_calls foldl]. apply IH; [by apply run_call_wf|].
  destruct (run_call_step env c self) as (-> & _ & _). done.
Qed.

Lemma BasicProjector_wf_preserving seed proj_dim grad_dim_arg proj_type d dev p :
  BasicProjector seed proj_dim grad_dim_arg proj_type d dev = Ok p ->
  wf_preserving p.
Proof.
  unfold BasicProjector.
  destruct ((grad_dim_arg =? 0)%nat || (proj_dim =? 0)%nat); [done|].
  intros [= <-] g q. simpl.
  destruct (t_ncols g =? grad_dim_arg)%nat; [|done].
  intros [= <-]. unfold wf. simpl. apply Forall_fmap, Forall_true.
  intros r. simpl. unfold project_row. by rewrite length_map, length_seq.
Qed.

(** ** The functional branch, step by step *)

Lemma _get_loss_grad_functional_unpack fm w b (batch : Batch) inds self :
  length batch <> 2%nat ->
  _get_loss_grad_functional fm w b batch inds self = (Raise ValueError, self).
Proof.
  unfold _get_loss_grad_functional.
  by destruct batch as [|? [|? [|]]].
Qed.

(** X9.  [featurize] writes the table before it computes the loss quantity, and
    a failure of that second step does not take the write back: once
    [_featurize_functional] has returned, the object after [featurize] is
    the one it left, whatever the loss step does; the loss step raises
    [ValueError] for any batch that is not exactly a pair of tensors, and
    an exception of the loss step is the exception of [featurize]. *)
Theorem featurize_loss_failure_keeps_write
    env out_fn loss_fn fm w b (batch : Batch) inds (self s1 : TRAKer) v :
  _featurize_functional env out_fn w b batch inds self = (Ok v, s1) ->
  (featurize env out_fn loss_fn (AsTriple fm w b) batch inds true self).2 = s1
  /\ (length batch <> 2%nat ->
      featurize env out_fn loss_fn (AsTriple fm w b) batch inds true self
      = (Raise ValueError, s1))
  /\ (forall e,
        (_get_loss_grad_functional fm w b batch inds s1).1 = Raise e ->
        featurize env out_fn loss_fn (AsTriple fm w b) batch inds true self
        = (Raise e, s1)).
Proof.
  intros Hff. unfold featurize, bind, ret. rewrite Hff.
  pose proof (_get_loss_grad_functional_state fm w b batch inds s1) as Hst.
  split; [|split].
  - destruct (_get_loss_grad_functional fm w b batch inds s1) as [[lg|e] s2];
      cbn [snd] in *; by subst s2.
  - intros Hl. by rewrite _get_loss_grad_functional_unpack.
  - intros e.
    destruct (_get_loss_grad_functional fm w b batch inds s1) as [[lg|e'] s2];
      cbn [fst snd] in *; subst s2; [done|]. by intros [= ->].
Qed.

(** X10.  [featurize] returns exactly when the batched strategy is asked for with
    [functorch] present and a model triple, the gradients of all samples
    are obtained, [record_grads] returns on them, the batch is a pair
    [(images, labels)], and the functional model and the output-to-loss
    function both return. *)
Theorem featurize_returns_iff
    env out_fn loss_fn model_arg (batch : Batch) inds functional
    (self : TRAKer) :
  (exists v s', featurize env out_fn loss_fn model_arg batch inds functional self
                = (Ok v, s'))
  <->
  functional = true /\ functorch_available env = true
  /\ exists fm w b G images labels logits l,
       model_arg = AsTriple fm w b
       /\ vmap (functorch_grad out_fn w b) batch = Ok G
       /\ (record_grads (vectorize_and_ignore_buffers w G) inds self).1 = Ok tt
       /\ batch = [images; labels]
       /\ call_func_model fm w b images = Ok logits
       /\ get_out_to_loss (model_output_fn self) logits labels = Ok l.
Proof.
  split.
  - intros (v & s' & Hf). destruct functional.
    2:{ destruct (featurize_iter_raises env out_fn loss_fn model_arg batch inds
                    self) as [e He]. congruence. }
    revert Hf. unfold featurize. destruct model_arg as [m|fm w b]; [done|].
    unfold _featurize_functional, bind, call, ret, throw.
    destruct (functorch_available env); [|done].
    destruct (vmap (functorch_grad out_fn w b) batch) as [G|] eqn:Ev; [|done].
    pose proof (record_grads_step (vectorize_and_ignore_buffers w G) inds self)
      as (Hs & _ & _).
    destruct (record_grads (vectorize_and_ignore_buffers w G) inds self)
      as [[[]|e] s1] eqn:Er; [|done].
    cbn [snd] in Hs.
    assert (Hmo : model_output_fn s1 = model_output_fn self)
      by (by rewrite Hs).
    unfold _get_loss_grad_functional.
    destruct batch as [|images [|labels [|]]]; try done.
    rewrite Hmo.
    destruct (call_func_model fm w b images) as [logits|] eqn:E1; [|done].
    cbn [rbind].
    destruct (get_out_to_loss (model_output_fn self) logits labels) as [l|]
      eqn:E2; [|done].
    intros _. do 2 (split; [done|]).
    exists fm, w, b, G, images, labels, logits, l. by rewrite Er.
  - intros (-> & Hf & fm & w & b & G & images & labels & logits & l
            & -> & Hv & Hr & -> & Hm & Hl).
    unfold featurize, _featurize_functional, bind, call, ret, throw.
    rewrite Hf, Hv.
    pose proof (record_grads_step (vectorize_and_ignore_buffers w G) inds self)
      as (Hs & _ & _).
    destruct (record_grads (vectorize_and_ignore_buffers w G) inds self)
      as [[[]|e] s1]; [|done].
    cbn [snd] in Hs.
    assert (Hmo : model_output_fn s1 = model_output_fn self)
      by (by rewrite Hs).
    unfold _get_loss_grad_functional.
    rewrite Hmo, Hm. cbn [rbind]. rewrite Hl. cbn [rbind]. by eexists _, _.
Qed.

Lemma traverse_lookup {A B} (f : A -> result B) (l : list A) bs k b :
  traverse f l = Ok bs -> bs !! k = Some b ->
  exists a, l !! k = Some a /\ f a = Ok b.
Proof.
  revert bs k. induction l as [|a l IH]; intros bs k; simpl.
  - by intros [= <-].
  - unfold rbind. destruct (f a) as [b0|] eqn:E; [|done].
    destruct (traverse f l) as [bs'|]; [|done].
    intros [= <-]. destruct k as [|k]; simpl.
    + intros [= <-]. by exists a.
    + by apply IH.
Qed.

(** Each sample on its own: what [vmap] returns at position [k] is the
    function applied to the [k]-th slices of the tensors of the batch,
    and there is one result per sample. *)
Lemma vmap_lookup {A} (f : list slice -> result A) (batch : Batch) G k x :
  vmap f batch = Ok G -> G !! k = Some x ->
  f (sample_at batch k) = Ok x.
Proof.
  unfold vmap. destruct batch as [|t ts]; [done|].
  destruct (forallb _ ts); [|done].
  intros Ht Hk. destruct (traverse_lookup _ _ _ _ _ Ht Hk) as (a & Ha & Hfa).
  rewrite list_lookup_fmap in Ha.
  destruct (seq 0 (length t) !! k) as [k'|] eqn:Es; [|done].
  apply lookup_seq in Es as [-> _]. simpl in Ha. by injection Ha as <-.
Qed.

(** X11.  What a returning [featurize] leaves in the table: with distinct
    sample indices [l], row [l[k]] holds row [k] of the projection, as
    broadcast by the store, of the matrix whose row [k] is the flattened
    gradient of sample [k] alone, converted to [grad_dtype]; every other
    row is as before. *)
Theorem featurize_functional_rows
    env out_fn loss_fn fm w b (batch : Batch) (l : list Z)
    (self s' : TRAKer) v :
  featurize env out_fn loss_fn (AsTriple fm w b) batch (Some l) true self
  = (Ok v, s') ->
  Forall (fun i => 0 <= i) l -> NoDup l ->
  exists G p rs,
    vmap (functorch_grad out_fn w b) batch = Ok G
    /\ (forall k x, G !! k = Some x ->
          functorch_grad out_fn w b (sample_at batch k) = Ok x)
    /\ project (projector self)
         (to (grad_dtype self) (vectorize_and_ignore_buffers w G)) = Ok p
    /\ expand_to (length l) (t_ncols (grads self)) p = Some rs
    /\ (forall k i r, l !! k = Some i -> rs !! k = Some r ->
          t_rows (grads s') !! Z.to_nat i = Some r)
    /\ (forall j, Z.of_nat j ∉ l ->
          t_rows (grads s') !! j = t_rows (grads self) !! j).
Proof.
  intros Hf Hpos Hnd.
  assert (Hfr : forall j, Z.of_nat j ∉ l ->
            t_rows (grads s') !! j = t_rows (grads self) !! j).
  { intros j Hj.
    pose proof (featurize_rows_frame env out_fn loss_fn (AsTriple fm w b) batch
                  l true self j Hpos Hj) as Hx.
    by rewrite Hf in Hx. }
  revert Hf. unfold featurize, _featurize_functional, bind, call, ret, throw.
  destruct (functorch_available env); [|done].
  destruct (vmap (functorch_grad out_fn w b) batch) as [G|] eqn:Ev; [|done].
  rewrite record_grads_unfold.
  destruct (project (projector self)
              (to (grad_dtype self) (vectorize_and_ignore_buffers w G)))
    as [p|] eqn:Ep; [|done].
  cbn [setitem fst snd].
  destruct (index_put (grads self) l p) as [[[]|e] t1] eqn:Ei; [|done].
  cbn [fst snd].
  pose proof (_get_loss_grad_functional_state fm w b batch (Some l)
                (set_grads self t1)) as Hst.
  destruct (_get_loss_grad_functional fm w b batch (Some l) (set_grads self t1))
    as [[lg|e] s2]; [|done].
  cbn [snd] in Hst. subst s2. intros [= _ <-].
  assert (Hok : (index_put (grads self) l p).1 = Ok tt) by by rewrite Ei.
  destruct (index_put_ok _ _ _ Hok) as (rs & Ex & Hw & Ht).
  rewrite Ei in Ht. cbn [snd] in Ht. subst t1.
  exists G, p, rs. split; [done|].
  split; [intros k x Hx; by apply (vmap_lookup _ _ G)|].
  split; [done|]. split; [done|]. split; [|done].
  intros k i r Hk Hr. cbn [grads set_grads t_rows].
  assert (Hz : zip l rs !! k = Some (i, r)).
  { rewrite lookup_zip_with, Hk. simpl. by rewrite Hr. }
  apply (write_rows_lookup _ _ k i r); [done|by apply written_NoDup|done|].
  apply write_rows_ok in Hw. rewrite Forall_lookup in Hw.
  destruct (Hw k _ Hz) as [q Hq]. simpl in Hq. rewrite Hq. f_equal.
  apply normalize_nonneg in Hq; [done|].
  rewrite Forall_lookup in Hpos. by apply (Hpos k).
Qed.

(** ** The iterative gradient extractor *)

Lemma iter_rows_spec (model_arg : Model) (margin : list Node) (z : Tensor)
    (inds : list nat) (acc rows : list (list scalar)) :
  iter_rows model_arg margin z inds acc = Ok rows ->
  length rows = length acc
  /\ (forall j, j ∉ inds -> rows !! j = acc !! j)
  /\ (NoDup inds -> forall ind, ind ∈ inds -> (ind < length acc)%nat ->
      exists node m g vec,
        model_arg = AsModule m
        /\ margin !! ind = Some node
        /\ autograd_grad node m = Ok g
        /\ expand_vec (t_ncols z) (parameters_to_vector g) = Some vec
        /\ rows !! ind = Some (map (cast (t_dtype z)) vec)).
Proof.
  revert acc. induction inds as [|ind rest IH]; intros acc; simpl.
  - intros [= <-]. split; [done|]. split; [done|].
    intros _ ind Hin. by apply elem_of_nil in Hin.
  - destruct (margin !! ind) as [node|] eqn:Em; [|done].
    destruct model_arg as [m|fm w b]; [|done].
    unfold rbind. destruct (autograd_grad node m) as [g|] eqn:Eg; [|done].
    destruct (expand_vec (t_ncols z) (parameters_to_vector g)) as [vec|] eqn:Ee;
      [|done].
    intros (Hlen & Hfr & Hrows)%IH. rewrite length_insert in Hlen, Hrows.
    split; [done|]. split.
    + intros j [Hne Hj]%not_elem_of_cons.
      rewrite Hfr by done. by apply list_lookup_insert_ne.
    + intros [Hni Hnd]%NoDup_cons i [->|Hi]%elem_of_cons Hlt.
      * exists node, m, g, vec. repeat (split; [done|]).
        rewrite Hfr by done. by apply list_lookup_insert_eq.
      * by apply Hrows.
Qed.

(** X12.  What [_featurize_iter] returns when it returns on a module: a matrix
    in the default dtype with one row per sample and [grad_dim] columns,
    whose row [ind] is the flattened gradient of [margin[ind]], broadcast
    to the width of the row when it is a single number.  It needs a CUDA
    device, it needs [out_fn] to give an output for every sample, and it
    leaves the object alone; the batch size is the leading dimension of
    the first tensor of the batch unless an integer is passed. *)
Theorem _featurize_iter_rows
    env out_fn m (batch : Batch) batch_size (self s' : TRAKer) v :
  _featurize_iter env out_fn (AsModule m) batch batch_size self = (Ok v, s') ->
  s' = self
  /\ cuda_available env = true
  /\ exists (n : nat) margin rows,
       match batch_size with
       | BSNone => exists t, head batch = Some t /\ n = length t
       | BSInt k => n = k
       | BSInds _ => False
       end
       /\ call_out_fn out_fn (AsModule m) batch = Ok margin
       /\ v = PyTensor (mkTensor float32 (grad_dim self) rows)
       /\ length rows = n
       /\ (n <= length margin)%nat
       /\ forall ind, (ind < n)%nat ->
            exists node g vec,
              margin !! ind = Some node
              /\ autograd_grad node m = Ok g
              /\ expand_vec (grad_dim self) (parameters_to_vector g) = Some vec
              /\ rows !! ind = Some (map (cast float32) vec).
Proof.
  unfold _featurize_iter. intros [= Hr <-]. split; [done|]. revert Hr.
  set (size := match batch_size with
               | BSNone => match batch with
                           | [] => Raise IndexError
                           | t :: _ => Ok (length t)
                           end
               | BSInt n => Ok n
               | BSInds _ => Raise TypeError
               end).
  destruct size as [n|] eqn:Es; [|done]. cbn [rbind].
  destruct (cuda_available env); [|done]. cbn [rbind].
  destruct (call_out_fn out_fn (AsModule m) batch) as [margin|]; [|done].
  cbn [rbind].
  destruct (iter_rows (AsModule m) margin (zeros n (grad_dim self)) (seq 0 n)
              (t_rows (zeros n (grad_dim self)))) as [rows|] eqn:Ei; [|done].
  cbn [rbind]. intros [= <-]. split; [done|].
  apply iter_rows_spec in Ei as (Hlen & _ & Hrows).
  cbn [zeros t_rows t_ncols t_dtype] in *.
  rewrite length_replicate in Hlen, Hrows.
  specialize (Hrows (NoDup_seq 0 n)).
  exists n, margin, rows. split.
  { subst size. destruct batch_size as [|k|l]; [|congruence|done].
    destruct batch as [|t ts]; [done|]. injection Es as <-. by exists t. }
  do 3 (split; [done|]).
  assert (Hall : forall ind, (ind < n)%nat ->
            exists node g vec,
              margin !! ind = Some node
              /\ autograd_grad node m = Ok g
              /\ expand_vec (grad_dim self) (parameters_to_vector g) = Some vec
              /\ rows !! ind = Some (map (cast float32) vec)).
  { intros ind Hlt.
    destruct (Hrows ind) as (node & m' & g & vec & [= <-] & ? & ? & ? & ?);
      [apply elem_of_seq; lia|done|].
    by exists node, g, vec. }
  split; [|done].
  destruct n as [|n']; [lia|].
  destruct (Hall n') as (node & _ & _ & Hn%lookup_lt_Some & _); lia.
Qed.

(** X13.  How the iterative branch of [featurize] ends.  With a list of indices
    it raises [TypeError] before anything is computed, whatever the model
    and the batch; without [inds] it raises [AttributeError] once the
    gradients have been computed, and otherwise the exception of the
    gradient computation, which is [IndexError] for an empty batch.  The
    object is never touched. *)
Theorem featurize_iter_outcome
    env out_fn loss_fn model_arg (batch : Batch) (self : TRAKer) :
  (forall l, featurize env out_fn loss_fn model_arg batch (Some l) false self
             = (Raise TypeError, self))
  /\ (forall v s',
        _featurize_iter env out_fn model_arg batch BSNone self = (Ok v, s') ->
        featurize env out_fn loss_fn model_arg batch None false self
        = (Raise AttributeError, self))
  /\ (forall e s',
        _featurize_iter env out_fn model_arg batch BSNone self = (Raise e, s') ->
        featurize env out_fn loss_fn model_arg batch None false self
        = (Raise e, self))
  /\ (batch = [] ->
      featurize env out_fn loss_fn model_arg batch None false self
      = (Raise IndexError, self)).
Proof.
  split; [done|]. split; [|split].
  - intros v s' Hi. unfold featurize, bind, throw. cbn [inds_as_batch_size].
    rewrite Hi. f_equal.
    pose proof (_featurize_iter_state env out_fn model_arg batch BSNone self)
      as Hs. by rewrite Hi in Hs.
  - intros e s' Hi. unfold featurize, bind, throw. cbn [inds_as_batch_size].
    rewrite Hi. f_equal.
    pose proof (_featurize_iter_state env out_fn model_arg batch BSNone self)
      as Hs. by rewrite Hi in Hs.
  - by intros ->.
Qed.

End Coverage.

(** * The concrete world at work *)

Import Toy.
#[local] Existing Instance Toy.numeric.
#[local] Existing Instance Toy.collaborators.

(** C1 (the code falls short of it).  On a table of five rows, a batch of
    two samples and [inds = [3, 4]], the iterative strategy raises
    [TypeError] ([inds] arrives where [_featurize_iter] expects a batch
    size) and leaves the object as it was; without [inds] the gradient
    matrix is computed and dropped and the call ends in [AttributeError]
    at [self._get_loss_grad_iter]; rows 3 and 4 are still zero.  The
    batched strategy on the same input returns and has the projected
    gradients in rows 3 and 4. *)
Theorem featurize_iter_records_nothing :
  featurize env_full tt tt (AsModule module) batch2 (Some [3; 4]) false
            (traker float32)
  = (Raise TypeError, traker float32)
  /\ featurize env_full tt tt (AsModule module) batch2 None false
               (traker float32)
     = (Raise AttributeError, traker float32)
  /\ t_rows (grads (traker float32)) = [[0; 0]; [0; 0]; [0; 0]; [0; 0]; [0; 0]]
  /\ (featurize env_full tt tt triple batch2 (Some [3; 4]) true
                (traker float32)).1
     = Ok PyNone
  /\ t_rows (grads (featurize env_full tt tt triple batch2 (Some [3; 4]) true
                       (traker float32)).2)
     = [[0; 0]; [0; 0]; [0; 0]; [60; 120]; [120; 240]].
Proof. repeat split; reflexivity. Qed.

(** C3, as stated, fails: with [functorch] missing, the batched strategy
    ends in [NameError], not in [UnsupportedModeError]. *)
Lemma featurize_functional_unavailable_cex :
  featurize env_bare tt tt triple batch2 (Some [3; 4]) true (traker float32)
  = (Raise NameError, traker float32)
  /\ (featurize env_bare tt tt triple batch2 (Some [3; 4]) true
                (traker float32)).1
     <> Raise UnsupportedModeError.
Proof. split; [reflexivity|discriminate]. Qed.

Lemma featurize_functional_unavailable_witness :
  functorch_available env_bare = false
  /\ featurize env_bare tt tt triple batch_ragged None true (traker float16)
     = (Raise NameError, traker float16).
Proof.
  split; [reflexivity|].
  apply (@featurize_functional_unavailable numeric collaborators
           env_bare tt tt tt [1; 2; 3] tt batch_ragged None (traker float16)).
  reflexivity.
Defined.

(** C4, as stated, fails: two samples for three indices end in
    [RuntimeError], not in [ShapeMismatchError]; one sample for three
    indices does not fail at all, its row is written to all three. *)
Lemma featurize_mismatch_cex :
  featurize env_full tt tt triple batch2 (Some [0; 1; 2]) true (traker float32)
  = (Raise RuntimeError, traker float32)
  /\ (featurize env_full tt tt triple batch2 (Some [0; 1; 2]) true
                (traker float32)).1
     <> Raise ShapeMismatchError
  /\ (featurize env_full tt tt triple batch1 (Some [0; 1; 2]) true
                (traker float32)).1
     = Ok PyNone
  /\ t_rows (grads (featurize env_full tt tt triple batch1 (Some [0; 1; 2]) true
                       (traker float32)).2)
     = [[60; 120]; [60; 120]; [60; 120]; [0; 0]; [0; 0]].
Proof. repeat split; try reflexivity. discriminate. Qed.

Lemma featurize_mismatch_fails_witness :
  ragged batch_ragged
  /\ exists e,
       featurize env_full tt tt triple batch_ragged (Some [0; 1]) true
                 (traker float32)
       = (Raise e, traker float32).
Proof.
  assert (Hr : ragged batch_ragged).
  { exists [10; 20], [1]. repeat split; [repeat constructor..|discriminate]. }
  split; [exact Hr|].
  destruct (@featurize_mismatch_fails numeric collaborators
              env_full tt tt triple batch_ragged (Some [0; 1]) true
              (traker float32)
              (@BasicProjector_row_preserving numeric collaborators
                 0 2%nat 3%nat normal float32 None _ eq_refl)
              (or_introl Hr)) as [e [He _]].
  by exists e.
Defined.

Lemma record_grads_overwrites_witness :
  record_grads g2 (Some [3; 4])
    (record_grads g1 (Some [3; 4]) (traker float32)).2
  = record_grads g2 (Some [3; 4]) (traker float32)
  /\ t_rows (grads (record_grads g2 (Some [3; 4])
                      (record_grads g1 (Some [3; 4]) (traker float32)).2).2)
     = [[0; 0]; [0; 0]; [0; 0]; [5; 15]; [14; 28]].
Proof.
  split; [|reflexivity].
  apply (@record_grads_overwrites numeric collaborators
           (traker float32) g1 g2 [3; 4]).
  reflexivity.
Defined.

Lemma record_grads_frame_witness :
  Forall (fun i => 0 <= i) [3; 4]
  /\ t_rows (grads (featurize env_full tt tt triple batch2 (Some [3; 4]) true
                       (traker float32)).2) !! 2%nat
     = Some [0; 0].
Proof.
  assert (Hpos : Forall (fun i => 0 <= i) [3; 4]) by (repeat constructor; lia).
  split; [exact Hpos|].
  destruct (@record_grads_frame numeric collaborators
              env_full (traker float32) [3; 4] Hpos)
    as (_ & _ & Hz & _).
  apply (Hz 5%nat 2%nat tt tt triple batch2 true 2%nat); [reflexivity|lia|].
  intros Hin. repeat (apply elem_of_cons in Hin as [Hin|Hin]; [lia|]).
  by apply elem_of_nil in Hin.
Defined.

Lemma init_store_zero_witness :
  construct float32 = Ok (traker float32)
  /\ grads (traker float32) = zeros 5 2.
Proof.
  split; [reflexivity|].
  apply (@init_store_zero numeric collaborators
           module tt 2%nat BasicProjector normal 0 "./trak_results" None
           5%nat float32 None (traker float32)).
  reflexivity.
Defined.

(** C8 (the code falls short of it).  Built with the default
    [grad_dtype = float16], the object has a [float32] table: line 61
    allocates it without a dtype.  The gradients are converted to
    [float16] and projected by a projector constructed for [float16], and
    the indexed store of line 117 then refuses them: the call raises
    [RuntimeError] and the table stays zero.  Built with
    [grad_dtype = float32] the same call returns. *)
Theorem store_dtype_not_grad_dtype :
  construct float16 = Ok (traker float16)
  /\ grad_dtype (traker float16) = float16
  /\ t_dtype (grads (traker float16)) = float32
  /\ t_dtype (grads (traker float16)) <> grad_dtype (traker float16)
  /\ project (projector (traker float16)) (to float16 g1)
     = Ok (@mkTensor numeric float16 2 [[6; 12]; [12; 24]])
  /\ record_grads g1 (Some [3; 4]) (traker float16)
     = (Raise RuntimeError, traker float16)
  /\ (record_grads g1 (Some [3; 4]) (traker float32)).1 = Ok tt.
Proof. repeat split; try reflexivity. discriminate. Qed.


Lemma featurize_returns_none_witness :
  exists v self',
    featurize env_full tt tt triple batch2 (Some [3; 4]) true (traker float32)
    = (Ok v, self')
    /\ v = PyNone.
Proof.
  eexists _, _. split; [reflexivity|].
  apply (@featurize_returns_none numeric collaborators
           env_full tt tt triple batch2 (Some [3; 4]) true
           (traker float32) _ _ eq_refl).
Defined.

(** ** The further properties at work *)

Lemma record_grads_outcome_witness :
  project (projector (traker float32)) (to float32 g1)
  = Ok (@mkTensor numeric float32 2 [[6; 12]; [12; 24]])
  /\ Forall (in_range 5) [3; 4].
Proof.
  split; [reflexivity|].
  assert (Hfit : Forall int64 [3; 4])
    by (repeat constructor; by vm_compute).
  apply (proj1 (proj1 (@record_grads_outcome numeric collaborators
                         g1 [3; 4] (traker float32)
                         (@mkTensor numeric float32 2 [[6; 12]; [12; 24]])
                         eq_refl Hfit))).
  reflexivity.
Defined.

Lemma record_grads_atomic_witness :
  RuntimeError <> IndexError
  /\ (@record_grads numeric collaborators g1 (Some [0; 1; 2]) (traker float32)).2 = traker float32.
Proof.
  assert (Hne : RuntimeError <> IndexError) by discriminate.
  split; [exact Hne|].
  apply (proj1 (@record_grads_atomic numeric collaborators
                  g1 (Some [0; 1; 2]) (traker float32)
                  (@record_grads numeric collaborators g1 (Some [0; 1; 2]) (traker float32)).2
                  RuntimeError Hne)).
  reflexivity.
Defined.

Lemma record_grads_commute_witness :
  record_grads g2 (Some [3; 4]) (@record_grads numeric collaborators g1 (Some [0; 1]) (traker float32)).2
  = record_grads g1 (Some [0; 1]) (@record_grads numeric collaborators g2 (Some [3; 4]) (traker float32)).2
  /\ t_rows (grads (@record_grads numeric collaborators g2 (Some [3; 4])
                      (@record_grads numeric collaborators g1 (Some [0; 1]) (traker float32)).2).2)
     = [[6; 12]; [12; 24]; [0; 0]; [5; 15]; [14; 28]].
Proof.
  split; [|reflexivity].
  apply (@record_grads_commute numeric collaborators
           g1 g2 [0; 1] [3; 4] (traker float32) eq_refl eq_refl).
  intros i1 i2 k H1 H2.
  repeat (apply elem_of_cons in H1 as [->|H1]);
    [..|by apply elem_of_nil in H1];
    (repeat (apply elem_of_cons in H2 as [->|H2]);
      [..|by apply elem_of_nil in H2]);
    vm_compute; intros [= <-]; discriminate.
Defined.

Lemma record_grads_broadcasts_single_row_witness :
  (@record_grads numeric collaborators g_single (Some [0; 1; 2]) (traker float32)).1 = Ok tt
  /\ t_rows (grads (@record_grads numeric collaborators g_single (Some [0; 1; 2])
                      (traker float32)).2) !! 1%nat
     = Some [6; 12].
Proof.
  split; [reflexivity|].
  apply (@record_grads_broadcasts_single_row numeric collaborators
           g_single [0; 1; 2] (traker float32)
           (@mkTensor numeric float32 2 [[6; 12]]) [6; 12]
           eq_refl eq_refl eq_refl eq_refl 1 1%nat); [|reflexivity].
  apply elem_of_cons. right. apply elem_of_cons. by left.
Defined.

Lemma record_grads_negative_indices_witness :
  record_grads g1 (Some [-2; -1]) (traker float32)
  = record_grads g1 (Some [3; 4]) (traker float32).
Proof.
  apply (@record_grads_negative_indices numeric collaborators
           g1 [3; 4] (traker float32)).
  repeat constructor; simpl; lia.
Defined.

Lemma record_grads_without_inds_witness :
  t_rows (grads (@record_grads numeric collaborators g_full None (traker float32)).2)
  = [[1; 3]; [2; 4]; [3; 5]; [3; 7]; [6; 12]].
Proof.
  destruct (@record_grads_without_inds numeric collaborators
              g_full (traker float32)
              (@mkTensor numeric float32 2 [[1; 3]; [2; 4]; [3; 5]; [3; 7]; [6; 12]])
              eq_refl) as (_ & _ & Hfull).
  rewrite (Hfull eq_refl eq_refl). reflexivity.
Defined.

Lemma calls_keep_rows_wf_witness :
  wf (grads (run_calls env_full
               [CallRecordGrads g1 (Some [3; 4]);
                CallFeaturize tt tt triple batch1 (Some [0; 1; 2]) true;
                CallRecordGrads g_full None]
               (traker float32))).
Proof.
  apply (@calls_keep_rows_wf numeric collaborators).
  - unfold wf. simpl. repeat constructor.
  - apply (@BasicProjector_wf_preserving numeric collaborators
             0 2%nat 3%nat normal float32 None _ eq_refl).
Defined.

Lemma featurize_loss_failure_keeps_write_witness :
  @featurize numeric collaborators env_full tt tt triple batch_images (Some [3; 4]) true
            (traker float32)
  = (Raise ValueError,
     (@_featurize_functional numeric collaborators env_full tt [1; 2; 3] tt batch_images (Some [3; 4])
        (traker float32)).2)
  /\ t_rows (grads (@_featurize_functional numeric collaborators env_full tt [1; 2; 3] tt batch_images
                      (Some [3; 4]) (traker float32)).2)
     = [[0; 0]; [0; 0]; [0; 0]; [60; 120]; [120; 240]].
Proof.
  split; [|reflexivity].
  destruct (@featurize_loss_failure_keeps_write numeric collaborators
              env_full tt tt tt [1; 2; 3] tt batch_images (Some [3; 4])
              (traker float32)
              (@_featurize_functional numeric collaborators env_full tt [1; 2; 3] tt batch_images
                 (Some [3; 4]) (traker float32)).2
              PyNone eq_refl) as (_ & Hl & _).
  apply Hl. discriminate.
Defined.

Lemma featurize_functional_rows_witness :
  exists G p rs,
    vmap (@functorch_grad numeric collaborators tt [1; 2; 3] tt) batch2 = Ok G
    /\ (forall k x, G !! k = Some x ->
          functorch_grad tt [1; 2; 3] tt (sample_at batch2 k) = Ok x)
    /\ project (projector (traker float32))
         (to float32 (@vectorize_and_ignore_buffers numeric collaborators [1; 2; 3] G)) = Ok p
    /\ expand_to 2 2 p = Some rs
    /\ (forall k i r, [3; 4] !! k = Some i -> rs !! k = Some r ->
          t_rows (grads (@featurize numeric collaborators env_full tt tt triple batch2 (Some [3; 4])
                           true (traker float32)).2) !! Z.to_nat i
          = Some r)
    /\ (forall j, Z.of_nat j ∉ [3; 4] ->
          t_rows (grads (@featurize numeric collaborators env_full tt tt triple batch2 (Some [3; 4])
                           true (traker float32)).2) !! j
          = t_rows (grads (traker float32)) !! j).
Proof.
  apply (@featurize_functional_rows numeric collaborators
           env_full tt tt tt [1; 2; 3] tt batch2 [3; 4] (traker float32)
           (@featurize numeric collaborators env_full tt tt triple batch2 (Some [3; 4]) true
              (traker float32)).2
           PyNone eq_refl).
  - repeat constructor; lia.
  - repeat constructor; intros Hin;
      repeat (apply elem_of_cons in Hin as [Hin|Hin]; [discriminate|]);
      by apply elem_of_nil in Hin.
Defined.

Lemma _featurize_iter_rows_witness :
  cuda_available env_full = true
  /\ (@_featurize_iter numeric collaborators env_full tt (AsModule module) batch2 BSNone
        (traker float32)).1
     = Ok (PyTensor (@mkTensor numeric float32 3 [[10; 10; 10]; [20; 20; 20]])).
Proof.
  split; [|reflexivity].
  apply (@_featurize_iter_rows numeric collaborators
           env_full tt module batch2 BSNone (traker float32) (traker float32)
           (PyTensor (@mkTensor numeric float32 3 [[10; 10; 10]; [20; 20; 20]]))
           eq_refl).
Defined.
